(** * A shallow embedding of the Vasha AI frontend pages (Chat / ASR, MT),
    of [chatService] and of the Hero evaluation-plot lightbox.

    The pages are React components whose handlers run on the browser event
    loop.  They are modelled as explicit state passing over a [world] that
    holds the current time, the registered timers ([setInterval] /
    [setTimeout]), the counter of [Math.random] draws and the page state.
    An awaited service call splits a handler in two: the part before the
    [await] runs on the user's click, the continuation runs on the event
    that delivers the service's result. *)

From Stdlib Require Import ZArith List String Ascii Bool Lia.
Import ListNotations.
Open Scope Z_scope.
Open Scope string_scope.

(** ** Math.random and the simulated progress updaters *)
Module Progress.

(** A value returned by [Math.random()]: the fraction [num / den], with
    [0 <= num < den] for a real draw. *)
Definition random_value := (Z * Z)%type.

Definition valid_random (r : random_value) : Prop :=
  0 <= fst r < snd r.

(** [Math.floor(Math.random() * k)] *)
Definition floor_random (r : random_value) (k : Z) : Z :=
  (fst r * k) / snd r.

(** Updater passed to [setAsrProgress] by the ASR interval
    (Chat.tsx, [handleSend]). *)
Definition asr_tick (r : random_value) (p : option Z) : Z :=
  match p with
  | None => 1
  | Some p =>
      let next := p + floor_random r 6 + 2 in
      if Z.geb next 90 then 90 else next
  end.

(** Updater passed to [setMtProgress] by the MT interval
    (MT.tsx, [handleTranslate]). *)
Definition mt_tick (r : random_value) (p : option Z) : Z :=
  match p with
  | None => 1
  | Some p =>
      let next := p + floor_random r 8 + 3 in
      if Z.geb next 90 then 90 else next
  end.

(** [Math.min(progress, 100)], the value handed to the progress bar. *)
Definition rendered (p : Z) : Z := Z.min p 100.

End Progress.

(** ** The browser event loop *)
Module EventLoop.

Section Loop.
(** [P]: the page state; [A]: the callbacks registered with timers;
    [E]: the external events (user input, service results). *)
Context {P A E : Type}.

Record task := mkTask {
  t_handle : nat;          (* id returned by setInterval / setTimeout *)
  t_due : Z;               (* next time the callback runs *)
  t_period : option Z;     (* Some period for an interval *)
  t_cb : A
}.

Record world := mkWorld {
  now : Z;
  tasks : list task;       (* in registration order *)
  next_handle : nat;
  draws : nat;             (* number of Math.random calls so far *)
  page : P
}.

Definition set_page (w : world) (p : P) : world :=
  mkWorld (now w) (tasks w) (next_handle w) (draws w) p.

Definition update_page (f : P -> P) (w : world) : world :=
  set_page w (f (page w)).

(** [window.setInterval(cb, period)]: returns the handle. *)
Definition set_interval (cb : A) (period : Z) (w : world) : nat * world :=
  let h := next_handle w in
  (h, mkWorld (now w) (tasks w ++ [mkTask h (now w + period) (Some period) cb])
              (S h) (draws w) (page w)).

(** [setTimeout(cb, delay)] *)
Definition set_timeout (cb : A) (delay : Z) (w : world) : world :=
  let h := next_handle w in
  mkWorld (now w) (tasks w ++ [mkTask h (now w + delay) None cb])
          (S h) (draws w) (page w).

(** [clearInterval(h)] *)
Definition clear_interval (h : nat) (w : world) : world :=
  mkWorld (now w) (filter (fun t => negb (Nat.eqb (t_handle t) h)) (tasks w))
          (next_handle w) (draws w) (page w).

(** The task that runs next: least due time, earliest registered first. *)
Fixpoint earliest (ts : list task) : option task :=
  match ts with
  | [] => None
  | t :: ts' =>
      match earliest ts' with
      | None => Some t
      | Some u => if Z.ltb (t_due u) (t_due t) then Some u else Some t
      end
  end.

Variable random : nat -> Progress.random_value.
(** Does the callback call [Math.random()]? *)
Variable uses_random : A -> bool.
(** Running a callback. *)
Variable run_cb : A -> Progress.random_value -> P -> P.
(** Running the handler of an external event. *)
Variable handle : E -> world -> world.

(** Running a due task: an interval is re-armed, a timeout removed. *)
Definition fire (t : task) (w : world) : world :=
  let ts := match t_period t with
            | Some p =>
                map (fun u => if Nat.eqb (t_handle u) (t_handle t)
                              then mkTask (t_handle u) (t_due u + p) (Some p) (t_cb u)
                              else u) (tasks w)
            | None => filter (fun u => negb (Nat.eqb (t_handle u) (t_handle t))) (tasks w)
            end in
  let r := random (draws w) in
  let d := if uses_random (t_cb t) then S (draws w) else draws w in
  mkWorld (t_due t) ts (next_handle w) d (run_cb (t_cb t) r (page w)).

Definition deliver (time : Z) (e : E) (w : world) : world :=
  handle e (mkWorld time (tasks w) (next_handle w) (draws w) (page w)).

(** One turn of the loop: the external events are given with their
    times, in order; a task due no later than the next external event
    runs first.  Nothing runs after [horizon]. *)
Definition loop_step (horizon : Z) (w : world) (evs : list (Z * E))
  : option (world * list (Z * E)) :=
  match evs, earliest (tasks w) with
  | (te, e) :: rest, Some t =>
      if Z.leb (t_due t) te then Some (fire t w, evs) else Some (deliver te e w, rest)
  | (te, e) :: rest, None => Some (deliver te e w, rest)
  | [], Some t => if Z.leb (t_due t) horizon then Some (fire t w, []) else None
  | [], None => None
  end.

Fixpoint run (fuel : nat) (horizon : Z) (w : world) (evs : list (Z * E)) : world :=
  match fuel with
  | O => w
  | S f =>
      match loop_step horizon w evs with
      | None => w
      | Some (w', evs') => run f horizon w' evs'
      end
  end.

End Loop.

Arguments task : clear implicits.
Arguments world : clear implicits.

End EventLoop.

(** ** Strings: [String.prototype.trim] and JS truthiness *)
Module JS.

Definition is_space (c : ascii) : bool :=
  match nat_of_ascii c with
  | 32 | 9 | 10 | 11 | 12 | 13 => true
  | _ => false
  end%nat.

Fixpoint trim_start (s : string) : string :=
  match s with
  | EmptyString => EmptyString
  | String c s' => if is_space c then trim_start s' else s
  end.

Definition trim (s : string) : string :=
  string_of_list_ascii (rev (list_ascii_of_string
    (trim_start (string_of_list_ascii (rev (list_ascii_of_string (trim_start s))))))).

(** Truthiness of a [string | null] value. *)
Definition truthy (s : option string) : bool :=
  match s with
  | Some EmptyString | None => false
  | Some _ => true
  end.

(** [a || b] on [string | null] values. *)
Definition or_else (a : option string) (b : option string) : option string :=
  if truthy a then a else b.

End JS.

(** ** The Chat page: [handleSend] and its ASR stage (Chat.tsx) *)
Module Chat.
Import EventLoop.

(** [ASRResponse] as the page reads it. *)
Record ASRResponse := mkASRResponse {
  success : bool;
  transcription : string;
  language : string;
  language_name : string;
  model_used : string;
  error : option string
}.

(** What the awaited [asrService] call delivers. *)
Inductive asr_result :=
| Returned (r : ASRResponse)
| Threw (message : string).

(** Which [asrService] function [handleSend] awaits. *)
Inductive asr_call :=
| ProcessMicrophoneAudio (blob : string)
| ProcessFileUpload (file : string)
| ProcessYouTubeAudio (url : string).

Record Message := mkMessage { m_content : string; m_role : string }.

Record Toast := mkToast { t_title : string; t_description : string }.

(** An ASR call being awaited, with the values the handler closed over. *)
Record pending := mkPending {
  p_op : nat;
  p_interval : nat;           (* handle of asrInterval *)
  p_input : string;           (* input at the time of the click *)
  p_audioBlob : option string;
  p_detected : option string; (* detectedLanguage at the time of the click *)
  p_call : asr_call
}.

Record ChatState := mkChat {
  input : string;
  isLoading : bool;
  isProcessingASR : bool;
  asrProgress : option Z;
  backendAvailable : option bool;
  detectedLanguage : option string;
  audioBlob : option string;
  audioFile : option string;
  mediaLink : option string;
  lastRecordingUrl : option string;
  lastTranscription : option string;
  messages : list Message;
  toasts : list Toast;
  inflight : list pending;
  next_op : nat;
  progress_log : list (option Z)   (* every value given to setAsrProgress *)
}.

Definition initial (backend : option bool) : ChatState :=
  mkChat "" false false None backend None None None None None None
         [mkMessage "Hello! I'm Vasha AI. How can I help you today?" "assistant"]
         [] [] 0 [].

(** Field updates, one per React state setter. *)
Definition setInput v s := mkChat v (isLoading s) (isProcessingASR s) (asrProgress s) (backendAvailable s) (detectedLanguage s) (audioBlob s) (audioFile s) (mediaLink s) (lastRecordingUrl s) (lastTranscription s) (messages s) (toasts s) (inflight s) (next_op s) (progress_log s).
Definition setIsLoading v s := mkChat (input s) v (isProcessingASR s) (asrProgress s) (backendAvailable s) (detectedLanguage s) (audioBlob s) (audioFile s) (mediaLink s) (lastRecordingUrl s) (lastTranscription s) (messages s) (toasts s) (inflight s) (next_op s) (progress_log s).
Definition setIsProcessingASR v s := mkChat (input s) (isLoading s) v (asrProgress s) (backendAvailable s) (detectedLanguage s) (audioBlob s) (audioFile s) (mediaLink s) (lastRecordingUrl s) (lastTranscription s) (messages s) (toasts s) (inflight s) (next_op s) (progress_log s).
(** [setAsrProgress]: the value is also appended to the log. *)
Definition setAsrProgress v s := mkChat (input s) (isLoading s) (isProcessingASR s) v (backendAvailable s) (detectedLanguage s) (audioBlob s) (audioFile s) (mediaLink s) (lastRecordingUrl s) (lastTranscription s) (messages s) (toasts s) (inflight s) (next_op s) (progress_log s ++ [v]).
Definition setBackendAvailable v s := mkChat (input s) (isLoading s) (isProcessingASR s) (asrProgress s) v (detectedLanguage s) (audioBlob s) (audioFile s) (mediaLink s) (lastRecordingUrl s) (lastTranscription s) (messages s) (toasts s) (inflight s) (next_op s) (progress_log s).
Definition setDetectedLanguage v s := mkChat (input s) (isLoading s) (isProcessingASR s) (asrProgress s) (backendAvailable s) v (audioBlob s) (audioFile s) (mediaLink s) (lastRecordingUrl s) (lastTranscription s) (messages s) (toasts s) (inflight s) (next_op s) (progress_log s).
Definition setAudioBlob v s := mkChat (input s) (isLoading s) (isProcessingASR s) (asrProgress s) (backendAvailable s) (detectedLanguage s) v (audioFile s) (mediaLink s) (lastRecordingUrl s) (lastTranscription s) (messages s) (toasts s) (inflight s) (next_op s) (progress_log s).
Definition setAudioFile v s := mkChat (input s) (isLoading s) (isProcessingASR s) (asrProgress s) (backendAvailable s) (detectedLanguage s) (audioBlob s) v (mediaLink s) (lastRecordingUrl s) (lastTranscription s) (messages s) (toasts s) (inflight s) (next_op s) (progress_log s).
Definition setMediaLink v s := mkChat (input s) (isLoading s) (isProcessingASR s) (asrProgress s) (backendAvailable s) (detectedLanguage s) (audioBlob s) (audioFile s) v (lastRecordingUrl s) (lastTranscription s) (messages s) (toasts s) (inflight s) (next_op s) (progress_log s).
Definition setLastRecordingUrl v s := mkChat (input s) (isLoading s) (isProcessingASR s) (asrProgress s) (backendAvailable s) (detectedLanguage s) (audioBlob s) (audioFile s) (mediaLink s) v (lastTranscription s) (messages s) (toasts s) (inflight s) (next_op s) (progress_log s).
Definition setLastTranscription v s := mkChat (input s) (isLoading s) (isProcessingASR s) (asrProgress s) (backendAvailable s) (detectedLanguage s) (audioBlob s) (audioFile s) (mediaLink s) (lastRecordingUrl s) v (messages s) (toasts s) (inflight s) (next_op s) (progress_log s).
Definition addMessage m s := mkChat (input s) (isLoading s) (isProcessingASR s) (asrProgress s) (backendAvailable s) (detectedLanguage s) (audioBlob s) (audioFile s) (mediaLink s) (lastRecordingUrl s) (lastTranscription s) (messages s ++ [m]) (toasts s) (inflight s) (next_op s) (progress_log s).
Definition toast t s := mkChat (input s) (isLoading s) (isProcessingASR s) (asrProgress s) (backendAvailable s) (detectedLanguage s) (audioBlob s) (audioFile s) (mediaLink s) (lastRecordingUrl s) (lastTranscription s) (messages s) (toasts s ++ [t]) (inflight s) (next_op s) (progress_log s).
Definition setInflight v s := mkChat (input s) (isLoading s) (isProcessingASR s) (asrProgress s) (backendAvailable s) (detectedLanguage s) (audioBlob s) (audioFile s) (mediaLink s) (lastRecordingUrl s) (lastTranscription s) (messages s) (toasts s) v (next_op s) (progress_log s).
Definition setNextOp v s := mkChat (input s) (isLoading s) (isProcessingASR s) (asrProgress s) (backendAvailable s) (detectedLanguage s) (audioBlob s) (audioFile s) (mediaLink s) (lastRecordingUrl s) (lastTranscription s) (messages s) (toasts s) (inflight s) v (progress_log s).

(** The callbacks [handleSend] registers with timers. *)
Inductive callback :=
| AsrTick                    (* the asrInterval updater *)
| ProgressNull               (* () => setAsrProgress(null) *)
| ProcessingFalse            (* () => setIsProcessingASR(false) *)
| AIReply (inp transcription : string) (detected : option string).

Definition uses_random (c : callback) : bool :=
  match c with AsrTick => true | _ => false end.

Definition nl : string := String (ascii_of_nat 10) EmptyString.
Definition dq : string := String (ascii_of_nat 34) EmptyString.

(** [languages[code]]: the table lives in LanguageSelector, which is not
    among the sources; the code stands for its entry. *)
Definition language_label (code : string) : string := code.

Definition response_text (inp transcription : string) (detected : option string) : string :=
  "Thank you for your message"
  ++ (if JS.truthy (Some (JS.trim inp)) then ": " ++ dq ++ inp ++ dq else "")
  ++ (if JS.truthy (Some transcription) then nl ++ nl ++ "I heard: " ++ dq ++ transcription ++ dq else "")
  ++ ". This is an AI response from Vasha AI"
  ++ (match detected with
      | Some d => if JS.truthy (Some d) then " (detected language: " ++ language_label d ++ ")" else ""
      | None => ""
      end)
  ++ ". You can click on continue to run the machine tarnslation model.".

(** Running a timer callback.  The 1500 ms reply also records the response
    in the history panel and persists it; neither is observed here. *)
Definition run_cb (c : callback) (r : Progress.random_value) (s : ChatState) : ChatState :=
  match c with
  | AsrTick => setAsrProgress (Some (Progress.asr_tick r (asrProgress s))) s
  | ProgressNull => setAsrProgress None s
  | ProcessingFalse => setIsProcessingASR false s
  | AIReply inp tr det =>
      setIsLoading false (addMessage (mkMessage (response_text inp tr det) "assistant") s)
  end.

Definition W := world ChatState callback.

(** External events of the page. *)
Inductive event :=
| Send                                   (* handleSend: button or Enter *)
| AsrDelivered (op : nat) (res : asr_result)
| TypeInput (s : string)
| AudioReady (blob : string)
| FileSelected (file : string)
| LinkSubmit (url : string)
| BackendHealth (ok : bool).

(** The [if (audioBlob) ... else if (audioFile) ... else if (mediaLink)] chain. *)
Definition select_call (s : ChatState) : option asr_call :=
  match audioBlob s, audioFile s, mediaLink s with
  | Some b, _, _ => Some (ProcessMicrophoneAudio b)
  | None, Some f, _ => Some (ProcessFileUpload f)
  | None, None, Some l => Some (ProcessYouTubeAudio l)
  | None, None, None => None
  end.

Definition has_media (s : ChatState) : bool :=
  match select_call s with Some _ => true | None => false end.

(** The guard on the first line of [handleSend]. *)
Definition send_blocked (s : ChatState) : bool :=
  (negb (JS.truthy (Some (JS.trim (input s)))) && negb (has_media s))
  || isLoading s || isProcessingASR s.

(** [URL.createObjectURL(audioBlob)] *)
Definition object_url (blob : string) : string := "blob:" ++ blob.

(** The part of [handleSend] after the ASR block: the user message, the
    cleared inputs and the simulated reply. *)
Definition finish_send (inp : string) (detected : option string) (transcription : string)
    (w : W) : W :=
  let content := JS.trim inp in
  let content :=
    if JS.truthy (Some transcription) then
      if JS.truthy (Some content)
      then content ++ nl ++ nl ++ "[Transcription: " ++ transcription ++ "]"
      else "[Transcription: " ++ transcription ++ "]"
    else content in
  let w1 := update_page (fun s =>
              setMediaLink None (setAudioFile None (setAudioBlob None
                (setIsLoading true (setInput "" (addMessage (mkMessage content "user") s)))))) w in
  set_timeout (AIReply inp transcription detected) 1500 w1.

(** [handleSend] up to the [await] of the ASR service. *)
Definition handleSend (w : W) : W :=
  let s := page w in
  if send_blocked s then w
  else
    match select_call s with
    | None => finish_send (input s) (detectedLanguage s) "" w
    | Some call =>
        match backendAvailable s with
        | Some true =>
            let w1 := update_page (fun s => setAsrProgress (Some 0) (setIsProcessingASR true s)) w in
            let (h, w2) := set_interval AsrTick 300 w1 in
            update_page (fun s' =>
              setNextOp (S (next_op s'))
                (setInflight (inflight s' ++
                   [mkPending (next_op s') h (input s) (audioBlob s) (detectedLanguage s) call]) s')) w2
        | _ =>
            update_page (toast (mkToast "Backend not available"
               "Cannot process audio/video. Please start the backend server.")) w
        end
    end.

Fixpoint find_pending (op : nat) (l : list pending) : option pending :=
  match l with
  | [] => None
  | p :: l' => if Nat.eqb (p_op p) op then Some p else find_pending op l'
  end.

Definition remove_pending (op : nat) (l : list pending) : list pending :=
  filter (fun p => negb (Nat.eqb (p_op p) op)) l.

(** The [finally] block of the ASR [try]. *)
Definition asr_finally (p : pending) (w : W) : W :=
  let w1 := update_page (setAsrProgress (Some 100)) w in
  let w2 := set_timeout ProgressNull 700 w1 in
  let w3 := clear_interval (p_interval p) w2 in
  set_timeout ProcessingFalse 200 w3.

(** The [catch] block (which ends in [return]), then the [finally] block. *)
Definition asr_catch (p : pending) (message : string) (w : W) : W :=
  let w1 := update_page (fun s =>
              setAsrProgress (Some 100) (toast (mkToast "ASR processing failed" message) s)) w in
  let w2 := set_timeout ProgressNull 700 w1 in
  let w3 := update_page (setIsProcessingASR false) w2 in
  asr_finally p w3.

(** The success branch of [if (asrResponse.success)]. *)
Definition asr_success (p : pending) (r : ASRResponse) (s : ChatState) : ChatState :=
  let s1 := setDetectedLanguage (Some (language r)) s in
  let s2 := match p_audioBlob p with
            | Some b => setLastRecordingUrl (Some (object_url b)) s1
            | None => s1
            end in
  let s3 := setLastTranscription (Some (transcription r)) s2 in
  toast (mkToast "Transcription completed"
           ("Detected: " ++ language_name r ++ " | Model: " ++ model_used r)) s3.

(** [handleSend] from the [await] on, when the ASR call of [op] settles. *)
Definition on_asr_result (op : nat) (res : asr_result) (w : W) : W :=
  match find_pending op (inflight (page w)) with
  | None => w
  | Some p =>
      let w0 := update_page (fun s => setInflight (remove_pending op (inflight s)) s) w in
      match res with
      | Returned r =>
          if success r then
            let w1 := asr_finally p (update_page (asr_success p r) w0) in
            finish_send (p_input p) (p_detected p) (transcription r) w1
          else
            let msg := match JS.or_else (error r) (Some "ASR processing failed") with
                       | Some m => m | None => "" end in
            asr_catch p msg w0
      | Threw m => asr_catch p m w0
      end
  end.

Definition handle (e : event) (w : W) : W :=
  match e with
  | Send => handleSend w
  | AsrDelivered op res => on_asr_result op res w
  | TypeInput v => update_page (setInput v) w
  | AudioReady b => update_page (fun s => toast (mkToast "" "Audio recording ready") (setAudioBlob (Some b) s)) w
  | FileSelected f => update_page (fun s => toast (mkToast "" ("File " ++ f ++ " selected")) (setAudioFile (Some f) s)) w
  | LinkSubmit u => update_page (fun s => toast (mkToast "" "Media link added") (setMediaLink (Some u) s)) w
  | BackendHealth ok => update_page (setBackendAvailable (Some ok)) w
  end.

Definition start (s : ChatState) : W := mkWorld 0 [] 0 0 s.

Definition run (random : nat -> Progress.random_value) (fuel : nat) (horizon : Z)
    (w : W) (evs : list (Z * event)) : W :=
  EventLoop.run random uses_random run_cb handle fuel horizon w evs.

(** The navigation state of the Continue button (shown when
    [lastTranscription] is truthy). *)
Record mt_location := mkMtLocation {
  loc_transcription : option string;
  loc_language : option string;
  loc_audioUrl : option string
}.

Definition continue_to_mt (s : ChatState) : option mt_location :=
  if JS.truthy (lastTranscription s)
  then Some (mkMtLocation (lastTranscription s) (detectedLanguage s) (lastRecordingUrl s))
  else None.

End Chat.

(** ** The MT page: [handleTranslate] and the TTS hand-off (MT.tsx) *)
Module MT.
Import EventLoop.

Inductive mt_model := Google | IndicTrans | Nllb.

(** What the awaited [mtService.translate] call delivers: a response with
    its [translation], or a thrown value with its [message] (if any). *)
Inductive mt_result :=
| Translated (translation : string)
| TranslateThrew (message : option string).

Record mt_request := mkRequest {
  rq_text : string; rq_src : string; rq_tgt : string; rq_model : mt_model
}.

Record mt_pending := mkMtPending {
  mp_op : nat; mp_interval : nat; mp_request : mt_request
}.

(** The navigation state passed to [/tts]. *)
Record tts_location := mkTtsLocation {
  tts_text : option string; tts_lang_code : string;
  tts_src_text : option string; tts_src_lang : string
}.

Record MTState := mkMT {
  (* constants read from location.state *)
  transcription : option string;
  language : option string;
  audioUrl : option string;
  (* React state *)
  srcLang : string;
  tgtLang : string;
  model : mt_model;
  loading : bool;
  result : option string;
  error : option string;
  mtProgress : option Z;
  (* observations *)
  progress_log : list (option Z);   (* every value given to setMtProgress *)
  inflight : list mt_pending;
  next_op : nat;
  access_token : option string;     (* localStorage "access_token" *)
  saved : list string;              (* texts sent to chatService.saveChat *)
  navigated : option tts_location
}.

(** The component's first lines: [location.state || {}], the [|| null]
    reads and the initial [useState] values. *)
Definition mount (loc : option Chat.mt_location) (token : option string) : MTState :=
  let tr := match loc with Some l => JS.or_else (Chat.loc_transcription l) None | None => None end in
  let lang := match loc with Some l => JS.or_else (Chat.loc_language l) None | None => None end in
  let au := match loc with Some l => JS.or_else (Chat.loc_audioUrl l) None | None => None end in
  let src := match JS.or_else lang (Some "en") with Some x => x | None => "en" end in
  mkMT tr lang au src "hi" IndicTrans false None None None [] [] 0 token [] None.

Definition setSrcLang v s := mkMT (transcription s) (language s) (audioUrl s) v (tgtLang s) (model s) (loading s) (result s) (error s) (mtProgress s) (progress_log s) (inflight s) (next_op s) (access_token s) (saved s) (navigated s).
Definition setTgtLang v s := mkMT (transcription s) (language s) (audioUrl s) (srcLang s) v (model s) (loading s) (result s) (error s) (mtProgress s) (progress_log s) (inflight s) (next_op s) (access_token s) (saved s) (navigated s).
Definition setModel v s := mkMT (transcription s) (language s) (audioUrl s) (srcLang s) (tgtLang s) v (loading s) (result s) (error s) (mtProgress s) (progress_log s) (inflight s) (next_op s) (access_token s) (saved s) (navigated s).
Definition setLoading v s := mkMT (transcription s) (language s) (audioUrl s) (srcLang s) (tgtLang s) (model s) v (result s) (error s) (mtProgress s) (progress_log s) (inflight s) (next_op s) (access_token s) (saved s) (navigated s).
Definition setResult v s := mkMT (transcription s) (language s) (audioUrl s) (srcLang s) (tgtLang s) (model s) (loading s) v (error s) (mtProgress s) (progress_log s) (inflight s) (next_op s) (access_token s) (saved s) (navigated s).
Definition setError v s := mkMT (transcription s) (language s) (audioUrl s) (srcLang s) (tgtLang s) (model s) (loading s) (result s) v (mtProgress s) (progress_log s) (inflight s) (next_op s) (access_token s) (saved s) (navigated s).
(** [setMtProgress]: the value is also appended to the log. *)
Definition setMtProgress v s := mkMT (transcription s) (language s) (audioUrl s) (srcLang s) (tgtLang s) (model s) (loading s) (result s) (error s) v (progress_log s ++ [v]) (inflight s) (next_op s) (access_token s) (saved s) (navigated s).
Definition setInflight v s := mkMT (transcription s) (language s) (audioUrl s) (srcLang s) (tgtLang s) (model s) (loading s) (result s) (error s) (mtProgress s) (progress_log s) v (next_op s) (access_token s) (saved s) (navigated s).
Definition setNextOp v s := mkMT (transcription s) (language s) (audioUrl s) (srcLang s) (tgtLang s) (model s) (loading s) (result s) (error s) (mtProgress s) (progress_log s) (inflight s) v (access_token s) (saved s) (navigated s).
Definition addSaved v s := mkMT (transcription s) (language s) (audioUrl s) (srcLang s) (tgtLang s) (model s) (loading s) (result s) (error s) (mtProgress s) (progress_log s) (inflight s) (next_op s) (access_token s) (saved s ++ [v]) (navigated s).
Definition navigate v s := mkMT (transcription s) (language s) (audioUrl s) (srcLang s) (tgtLang s) (model s) (loading s) (result s) (error s) (mtProgress s) (progress_log s) (inflight s) (next_op s) (access_token s) (saved s) (Some v).

Inductive callback :=
| MtTick                (* the mtInterval updater *)
| MtProgressNull.       (* () => setMtProgress(null) *)

Definition uses_random (c : callback) : bool :=
  match c with MtTick => true | MtProgressNull => false end.

Definition run_cb (c : callback) (r : Progress.random_value) (s : MTState) : MTState :=
  match c with
  | MtTick => setMtProgress (Some (Progress.mt_tick r (mtProgress s))) s
  | MtProgressNull => setMtProgress None s
  end.

Definition W := world MTState callback.

Inductive event :=
| Translate                          (* the Translate button *)
| MtDelivered (op : nat) (res : mt_result)
| SelectSrc (l : string)
| SelectTgt (l : string)
| SelectModel (m : mt_model)
| ContinueToTTS.                     (* shown when [result] is truthy *)

(** [handleTranslate] up to the [await]. *)
Definition handleTranslate (w : W) : W :=
  let s := page w in
  match transcription s with
  | None => w
  | Some tr =>
      let w1 := update_page (fun s => setMtProgress (Some 0) (setLoading true s)) w in
      let (h, w2) := set_interval MtTick 300 w1 in
      update_page (fun s' =>
        setNextOp (S (next_op s'))
          (setInflight (inflight s' ++
             [mkMtPending (next_op s') h (mkRequest tr (srcLang s) (tgtLang s) (model s))])
             (setError None s'))) w2
  end.

Fixpoint find_pending (op : nat) (l : list mt_pending) : option mt_pending :=
  match l with
  | [] => None
  | p :: l' => if Nat.eqb (mp_op p) op then Some p else find_pending op l'
  end.

(** The [finally] block. *)
Definition mt_finally (p : mt_pending) (w : W) : W :=
  let w1 := update_page (setMtProgress (Some 100)) w in
  let w2 := set_timeout MtProgressNull 700 w1 in
  let w3 := clear_interval (mp_interval p) w2 in
  update_page (setLoading false) w3.

(** [handleTranslate] from the [await] on. *)
Definition on_mt_result (op : nat) (res : mt_result) (w : W) : W :=
  match find_pending op (inflight (page w)) with
  | None => w
  | Some p =>
      let w0 := update_page (fun s =>
                  setInflight (filter (fun q => negb (Nat.eqb (mp_op q) op)) (inflight s)) s) w in
      match res with
      | Translated t =>
          (* setResult, then the fire-and-forget persistence *)
          let w1 := update_page (fun s =>
                      let s1 := setResult (Some t) s in
                      if JS.truthy (access_token s1) then addSaved t s1 else s1) w0 in
          mt_finally p w1
      | TranslateThrew m =>
          let msg := match JS.or_else m (Some "Translation failed") with
                     | Some x => x | None => "" end in
          mt_finally p (update_page (setError (Some msg)) w0)
      end
  end.

Definition continueToTTS (s : MTState) : MTState :=
  if JS.truthy (result s) then
    navigate (mkTtsLocation (result s) (tgtLang s) (transcription s) (srcLang s)) s
  else s.

Definition handle (e : event) (w : W) : W :=
  match e with
  | Translate => if loading (page w) then w else handleTranslate w  (* disabled={loading} *)
  | MtDelivered op res => on_mt_result op res w
  | SelectSrc l => update_page (setSrcLang l) w
  | SelectTgt l => update_page (setTgtLang l) w
  | SelectModel m => update_page (setModel m) w
  | ContinueToTTS => update_page continueToTTS w
  end.

Definition start (s : MTState) : W := mkWorld 0 [] 0 0 s.

Definition run (random : nat -> Progress.random_value) (fuel : nat) (horizon : Z)
    (w : W) (evs : list (Z * event)) : W :=
  EventLoop.run random uses_random run_cb handle fuel horizon w evs.

End MT.

(** ** chatService (services/chatService.ts) *)
Module ChatService.

(** [`${n}`] for an integer. *)
Fixpoint digits (fuel : nat) (n : Z) (acc : string) : string :=
  match fuel with
  | O => acc
  | S f =>
      let acc' := String (ascii_of_nat (48 + Z.to_nat (n mod 10))) acc in
      if Z.ltb n 10 then acc' else digits f (n / 10) acc'
  end.

Definition show_Z (n : Z) : string :=
  if Z.ltb n 0 then "-" ++ digits 64 (- n) "" else digits 64 n "".

Record request := mkRequest {
  rq_url : string;
  rq_method : string;
  rq_headers : list (string * string);
  rq_body : option string
}.

Record response := mkResponse { status : Z; body : string }.

(** [Response.ok] *)
Definition ok (r : response) : bool := Z.leb 200 (status r) && Z.leb (status r) 299.

Section Service.
(** JSON values, [JSON.parse] as [res.json()] applies it, and
    [JSON.stringify({ text })]. *)
Variable json : Type.
Variable parse : string -> option json.
Variable stringify_text : string -> string.

Inductive js_error :=
| ErrorWith (message : string)   (* new Error(message) *)
| JsonSyntaxError.               (* rejection of res.json() *)

Inductive outcome :=
| Resolved (v : json)
| Rejected (e : js_error).

(** [await res.json()] *)
Definition json_of (r : response) : outcome :=
  match parse (body r) with
  | Some v => Resolved v
  | None => Rejected JsonSyntaxError
  end.

Definition auth_header (token : option string) : list (string * string) :=
  if JS.truthy token then
    match token with Some t => [("Authorization", "Bearer " ++ t)] | None => [] end
  else [].

(** [getChats(limit)]: the request sent and the promise's outcome, for
    the token read from localStorage and the server's response. *)
Definition getChats (limit : Z) (token : option string) (server : request -> response)
    : request * outcome :=
  let rq := mkRequest ("http://localhost:8000/chats?limit=" ++ show_Z limit) "GET"
                      (auth_header token) None in
  let res := server rq in
  (rq, if negb (ok res)
       then Rejected (ErrorWith ("Failed to fetch chats: " ++ show_Z (status res)))
       else json_of res).

(** [saveChat(text)] *)
Definition saveChat (text : string) (token : option string) (server : request -> response)
    : request * outcome :=
  let rq := mkRequest "http://localhost:8000/chats" "POST"
                      ([("Content-Type", "application/json")] ++ auth_header token)
                      (Some (stringify_text text)) in
  let res := server rq in
  (rq, if negb (ok res)
       then Rejected (ErrorWith ("Failed to save chat: " ++ show_Z (status res) ++ " " ++ body res))
       else json_of res).

End Service.

End ChatService.

(** ** The Hero evaluation-plot lightbox (components/sections/Hero) *)
Module Hero.

Record HeroState := mkHero {
  evalImages : option (list string);
  evalIndex : Z;
  zoomed : bool
}.

Definition initial : HeroState := mkHero None 0 false.

Inductive event :=
| OpenAsrPlots | OpenMtPlots | OpenTtsPlots   (* the three "evaluation" buttons *)
| Prev                                        (* either ChevronLeft button *)
| Next                                        (* either ChevronRight button *)
| ToggleZoom
| Close.                                      (* Close button or backdrop *)

(** [setEvalImages(imgs); setEvalIndex(0); setZoomed(false)] *)
Definition open_plots (imgs : list string) (s : HeroState) : HeroState :=
  mkHero (Some imgs) 0 false.

Definition step (s : HeroState) (e : event) : HeroState :=
  match e with
  | OpenAsrPlots => open_plots ["/asrcombined.png"] s
  | OpenMtPlots => open_plots ["/mt_combined.png"] s
  | OpenTtsPlots => open_plots ["/tts_mos.png"; "/tts_rtf.png"] s
  | Prev =>
      match evalImages s with
      | Some imgs =>
          (* rendered when imgs.length > 1, disabled when evalIndex === 0 *)
          if Nat.ltb 1 (List.length imgs) && negb (Z.eqb (evalIndex s) 0)
          then mkHero (evalImages s) (Z.max 0 (evalIndex s - 1)) (zoomed s)
          else s
      | None => s
      end
  | Next =>
      match evalImages s with
      | Some imgs =>
          let last := Z.of_nat (List.length imgs) - 1 in
          if Nat.ltb 1 (List.length imgs) && negb (Z.eqb (evalIndex s) last)
          then mkHero (evalImages s) (Z.min last (evalIndex s + 1)) (zoomed s)
          else s
      | None => s
      end
  | ToggleZoom =>
      match evalImages s with
      | Some _ => mkHero (evalImages s) (evalIndex s) (negb (zoomed s))
      | None => s
      end
  | Close => mkHero None (evalIndex s) (zoomed s)
  end.

Definition run (s : HeroState) (es : list event) : HeroState := fold_left step es s.

(** [evalImages[evalIndex]] as an array read: [None] stands for
    [undefined], an out-of-bounds access. *)
Definition displayed (s : HeroState) : option string :=
  match evalImages s with
  | Some imgs => if Z.ltb (evalIndex s) 0 then None else nth_error imgs (Z.to_nat (evalIndex s))
  | None => None
  end.

End Hero.

(** * Properties *)

(** ** Hero lightbox *)
Module HeroProofs.
Import Hero.

Definition index_in_bounds (s : HeroState) : Prop :=
  match evalImages s with
  | Some imgs => 0 <= evalIndex s < Z.of_nat (List.length imgs)
  | None => True
  end.

Lemma step_in_bounds (s : HeroState) (e : event) :
  index_in_bounds s -> index_in_bounds (step s e).
Proof.
  unfold index_in_bounds; destruct e; cbn; try lia;
    destruct (evalImages s) as [imgs|] eqn:Ei; cbn; try rewrite Ei; auto.
  all: match goal with
       | |- context [if ?c then _ else _] => destruct c; cbn; try rewrite Ei; lia
       end.
Qed.

Lemma run_in_bounds (es : list event) (s : HeroState) :
  index_in_bounds s -> index_in_bounds (run s es).
Proof.
  revert s; induction es as [|e es IH]; intros s H; cbn; auto.
  apply IH, step_in_bounds, H.
Qed.

Lemma in_bounds_displayed (s : HeroState) :
  index_in_bounds s -> evalImages s <> None -> displayed s <> None.
Proof.
  unfold index_in_bounds, displayed; destruct (evalImages s) as [imgs|]; [|congruence].
  intros [H0 H1] _.
  destruct (Z.ltb_spec (evalIndex s) 0); [lia|].
  intros Hn; apply nth_error_None in Hn; lia.
Qed.

(** C10: from the initial state, after any sequence of lightbox events,
    whenever the lightbox is open [evalIndex] lies in
    [0, evalImages.length - 1] and [evalImages[evalIndex]] is an element
    of the array. *)
Theorem eval_index_in_bounds (es : list event) :
  let s := run initial es in
  match evalImages s with
  | Some imgs => 0 <= evalIndex s <= Z.of_nat (List.length imgs) - 1 /\ displayed s <> None
  | None => True
  end.
Proof.
  cbn zeta.
  pose proof (run_in_bounds es initial I) as H.
  pose proof (in_bounds_displayed _ H) as Hd.
  unfold index_in_bounds in H.
  destruct (evalImages (run initial es)); auto.
  split; [lia|]. apply Hd; congruence.
Qed.

End HeroProofs.

(** ** The ASR result as the Chat page surfaces it *)
Module ChatProofs.
Import EventLoop Chat.

(** C6: when an awaited ASR call returns a response with [success], the
    page shows exactly one new notification, "Detected: X | Model: Y",
    with X and Y copied from [language_name] and [model_used]. *)
Theorem asr_success_toast (w : Chat.W) (op : nat) (r : ASRResponse) (p : pending) :
  find_pending op (inflight (page w)) = Some p ->
  success r = true ->
  toasts (page (handle (AsrDelivered op (Returned r)) w))
  = (toasts (page w) ++
     [mkToast "Transcription completed"
        ("Detected: " ++ language_name r ++ " | Model: " ++ model_used r)])%list.
Proof.
  intros Hp Hs; cbn [handle]; unfold on_asr_result; rewrite Hp, Hs.
  unfold finish_send, asr_finally, asr_success.
  destruct (p_audioBlob p); reflexivity.
Qed.

(** The guard of [handleSend]: with nothing to send, or while a send or
    an ASR call is marked in progress, the handler changes nothing. *)
Lemma send_blocked_no_change (w : Chat.W) :
  send_blocked (page w) = true -> handle Send w = w.
Proof. intros H; cbn [handle]; unfold handleSend; rewrite H; reflexivity. Qed.

Definition rec_state : ChatState := setAudioBlob (Some "rec") (initial (Some true)).

Definition rec_response : ASRResponse :=
  mkASRResponse true "namaste" "hi" "Hindi" "whisper-base" None.

Lemma asr_success_toast_witness :
  find_pending 0 (inflight (page (handle Send (start rec_state))))
    = Some (mkPending 0 0 "" (Some "rec") None (ProcessMicrophoneAudio "rec"))
  /\ toasts (page (handle (AsrDelivered 0 (Returned rec_response)) (handle Send (start rec_state))))
     = (toasts (page (handle Send (start rec_state))) ++
        [mkToast "Transcription completed" "Detected: Hindi | Model: whisper-base"])%list.
Proof.
  split; [vm_compute; reflexivity|].
  apply (asr_success_toast (handle Send (start rec_state)) 0 rec_response
           (mkPending 0 0 "" (Some "rec") None (ProcessMicrophoneAudio "rec")));
    vm_compute; reflexivity.
Defined.

End ChatProofs.

(** ** The MT stage on its own, its failure path and the hand-offs *)
Module MTProofs.
Import EventLoop MT.

(** C2: the MT page translates any non-empty text handed to it in the
    navigation state, with no detected language and no audio from an ASR
    stage: the source language defaults to "en" and the Translate button
    issues [mtService.translate(text, "en", "hi", "indictrans")]. *)
Theorem mt_invocable_alone (text : string) (audio tok : option string) :
  text <> "" ->
  let s := mount (Some (Chat.mkMtLocation (Some text) None audio)) tok in
  transcription s = Some text /\ srcLang s = "en" /\
  inflight (page (handle Translate (start s)))
  = [mkMtPending 0 0 (mkRequest text "en" "hi" IndicTrans)].
Proof.
  intros Hne; destruct text as [|c t]; [contradiction|].
  cbn; auto.
Qed.

Lemma mt_invocable_alone_witness :
  "bonjour" <> "" /\
  let s := mount (Some (Chat.mkMtLocation (Some "bonjour") None None)) None in
  transcription s = Some "bonjour" /\ srcLang s = "en" /\
  inflight (page (handle Translate (start s)))
  = [mkMtPending 0 0 (mkRequest "bonjour" "en" "hi" IndicTrans)].
Proof.
  split; [discriminate|].
  apply (mt_invocable_alone "bonjour" None None); discriminate.
Defined.

Definition failure_message (m : option string) : string :=
  match JS.or_else m (Some "Translation failed") with Some x => x | None => "" end.

(** C5: when the awaited translate call of a pending operation throws,
    the transcription, detected language, source audio, the displayed
    translation ([result]), the language and model selections, the
    persisted texts and the navigation are unchanged; only [error],
    [mtProgress] (now 100) and [loading] (now false) change, besides the
    operation's own bookkeeping. *)
Theorem mt_failure_keeps_partial_result (w : MT.W) (op : nat) (m : option string)
    (p : mt_pending) :
  find_pending op (inflight (page w)) = Some p ->
  let s := page w in
  let s' := page (handle (MtDelivered op (TranslateThrew m)) w) in
  transcription s' = transcription s /\ language s' = language s /\
  audioUrl s' = audioUrl s /\ result s' = result s /\
  srcLang s' = srcLang s /\ tgtLang s' = tgtLang s /\ model s' = model s /\
  saved s' = saved s /\ navigated s' = navigated s /\
  error s' = Some (failure_message m) /\ mtProgress s' = Some 100 /\ loading s' = false.
Proof.
  intros Hp; cbn [handle]; unfold on_mt_result; rewrite Hp.
  cbn; repeat split; reflexivity.
Qed.

Definition hello_state : MTState :=
  mount (Some (Chat.mkMtLocation (Some "hello") (Some "en") (Some "blob:rec"))) None.

Lemma mt_failure_keeps_partial_result_witness :
  find_pending 0 (inflight (page (handle Translate (start hello_state))))
    = Some (mkMtPending 0 0 (mkRequest "hello" "en" "hi" IndicTrans))
  /\ error (page (handle (MtDelivered 0 (TranslateThrew None)) (handle Translate (start hello_state))))
     = Some "Translation failed".
Proof.
  split; [vm_compute; reflexivity|].
  destruct (mt_failure_keeps_partial_result (handle Translate (start hello_state)) 0 None
              (mkMtPending 0 0 (mkRequest "hello" "en" "hi" IndicTrans)))
    as (_ & _ & _ & _ & _ & _ & _ & _ & _ & He & _); [vm_compute; reflexivity|].
  rewrite He; reflexivity.
Defined.

End MTProofs.

(** ** Hand-offs between the stages: Chat -> MT -> TTS *)
Module HandoffProofs.
Import EventLoop.

(** [Math.random()] returning 0.5 on every call. *)
Definition half_random (_ : nat) : Progress.random_value := (1, 2).

(** C7 (counterexample): translate "hello" into the default target "hi",
    then pick "ta" in the target selector and press Continue to TTS: the
    TTS page receives the Hindi translation with [lang_code] "ta", not the
    target language of the translation. *)
Lemma tts_lang_code_is_current_selection :
  let w1 := MT.run half_random 20 500 (MT.start MTProofs.hello_state) [(0, MT.Translate)] in
  let w2 := MT.run half_random 50 1500 (MT.start MTProofs.hello_state)
              [(0, MT.Translate); (900, MT.MtDelivered 0 (MT.Translated "namaste"));
               (1000, MT.SelectTgt "ta"); (1100, MT.ContinueToTTS)] in
  map (fun p => MT.rq_tgt (MT.mp_request p)) (MT.inflight (page w1)) = ["hi"]
  /\ MT.navigated (page w2) = Some (MT.mkTtsLocation (Some "namaste") "ta" (Some "hello") "en").
Proof. vm_compute; split; reflexivity. Qed.

(** C7 (amended): the Continue button of the Chat page hands the MT page
    [lastTranscription], [detectedLanguage] and [lastRecordingUrl]; the MT
    page takes the transcription and the audio reference from them and
    initialises its source language to the detected language when it is
    a non-empty string, to "en" when it is absent.  Continue to TTS hands
    the TTS page the last translation as [text] and the target language
    currently selected on the MT page as [lang_code], with the source
    text and source language. *)
Theorem stage_handoffs (s : Chat.ChatState) (m : MT.MTState) (tok : option string) :
  JS.truthy (Chat.lastTranscription s) = true ->
  JS.truthy (MT.result m) = true ->
  Chat.continue_to_mt s
    = Some (Chat.mkMtLocation (Chat.lastTranscription s) (Chat.detectedLanguage s)
                              (Chat.lastRecordingUrl s))
  /\ (let ms := MT.mount (Chat.continue_to_mt s) tok in
      MT.transcription ms = Chat.lastTranscription s
      /\ MT.audioUrl ms = JS.or_else (Chat.lastRecordingUrl s) None
      /\ (forall l, Chat.detectedLanguage s = Some l -> l <> "" -> MT.srcLang ms = l)
      /\ (Chat.detectedLanguage s = None -> MT.srcLang ms = "en"))
  /\ MT.navigated (MT.continueToTTS m)
     = Some (MT.mkTtsLocation (MT.result m) (MT.tgtLang m) (MT.transcription m) (MT.srcLang m)).
Proof.
  intros Ht Hr.
  unfold Chat.continue_to_mt, MT.continueToTTS; rewrite Ht, Hr.
  split; [reflexivity|]. split; [|reflexivity].
  unfold MT.mount; cbn -[JS.or_else].
  unfold JS.or_else at 1; rewrite Ht.
  repeat split.
  - intros l Hl Hne; rewrite Hl; destruct l as [|c l]; [contradiction|reflexivity].
  - intros Hl; rewrite Hl; reflexivity.
Qed.

Definition heard_state : Chat.ChatState :=
  Chat.setDetectedLanguage (Some "hi")
    (Chat.setLastTranscription (Some "namaste") (Chat.initial (Some true))).

Lemma stage_handoffs_witness :
  Chat.continue_to_mt heard_state = Some (Chat.mkMtLocation (Some "namaste") (Some "hi") None)
  /\ MT.srcLang (MT.mount (Chat.continue_to_mt heard_state) None) = "hi".
Proof.
  destruct (stage_handoffs heard_state (MT.setResult (Some "hello") MTProofs.hello_state) None)
    as (H1 & (_ & _ & H2 & _) & _); [reflexivity|reflexivity|].
  split; [exact H1|]. apply H2; [reflexivity|discriminate].
Defined.

End HandoffProofs.

(** ** chatService *)
Module ChatServiceProofs.
Import ChatService.

Definition contains (s sub : string) : Prop := exists pre post, s = pre ++ sub ++ post.

Lemma auth_header_iff (token : option string) :
  (exists t, In ("Authorization", "Bearer " ++ t) (auth_header token)) <-> JS.truthy token = true.
Proof.
  unfold auth_header; destruct token as [[|c t]|]; cbn; split.
  - intros [x []].
  - discriminate.
  - reflexivity.
  - intros _; exists (String c t); auto.
  - intros [x []].
  - discriminate.
Qed.

Lemma append_empty (s : string) : s ++ "" = s.
Proof. induction s as [|c s IH]; cbn; [reflexivity|now rewrite IH]. Qed.

Lemma json_of_not_error json parse (r : response) (m : string) :
  json_of json parse r <> Rejected json (ErrorWith m).
Proof. unfold json_of; destruct (parse (body r)); discriminate. Qed.

(** C8 (counterexample): with an empty string stored as access_token the
    token exists in localStorage, yet no Authorization header is sent. *)
Lemma empty_token_sends_no_header :
  rq_headers (fst (getChats unit (fun _ => None) 50 (Some "") (fun _ => mkResponse 200 "[]"))) = []
  /\ rq_headers (fst (saveChat unit (fun _ => None) (fun t => t) "hi" (Some "")
                       (fun _ => mkResponse 200 "[]")))
     = [("Content-Type", "application/json")].
Proof. split; reflexivity. Qed.

(** C8 (amended): for [getChats] and [saveChat], the promise rejects with
    an [Error] whose message contains the HTTP status exactly when the
    response is not ok; when it is ok the outcome is that of
    [res.json()], the parsed body when it parses; an Authorization
    bearer header is attached exactly when access_token is a non-empty
    string. *)
Theorem chat_service_contract (json : Type) (parse : string -> option json)
    (stringify_text : string -> string) (limit : Z) (text : string)
    (token : option string) (server : request -> response) :
  let (rq1, o1) := getChats json parse limit token server in
  let (rq2, o2) := saveChat json parse stringify_text text token server in
  ((exists msg, o1 = Rejected json (ErrorWith msg) /\ contains msg (show_Z (status (server rq1))))
     <-> ok (server rq1) = false)
  /\ (ok (server rq1) = true -> o1 = json_of json parse (server rq1))
  /\ ((exists t, In ("Authorization", "Bearer " ++ t) (rq_headers rq1)) <-> JS.truthy token = true)
  /\ ((exists msg, o2 = Rejected json (ErrorWith msg) /\ contains msg (show_Z (status (server rq2))))
     <-> ok (server rq2) = false)
  /\ (ok (server rq2) = true -> o2 = json_of json parse (server rq2))
  /\ ((exists t, In ("Authorization", "Bearer " ++ t) (rq_headers rq2)) <-> JS.truthy token = true).
Proof.
  cbn [getChats saveChat rq_headers].
  repeat split.
  - intros [msg [Ho _]]; destruct (ok _); [|reflexivity].
    exfalso; eapply json_of_not_error; exact Ho.
  - intros Hok; rewrite Hok; eexists; split; [reflexivity|].
    exists "Failed to fetch chats: ", ""; rewrite append_empty; reflexivity.
  - intros Hok; rewrite Hok; reflexivity.
  - apply auth_header_iff.
  - apply auth_header_iff.
  - intros [msg [Ho _]]; destruct (ok _); [|reflexivity].
    exfalso; eapply json_of_not_error; exact Ho.
  - intros Hok; rewrite Hok; eexists; split; [reflexivity|].
    eexists "Failed to save chat: ", _; reflexivity.
  - intros Hok; rewrite Hok; reflexivity.
  - intros [t Ht]; apply auth_header_iff; exists t.
    destruct Ht as [Ht|Ht]; [discriminate|exact Ht].
  - intros H; apply auth_header_iff in H; destruct H as [t Ht]; exists t; right; exact Ht.
Qed.

End ChatServiceProofs.

(** ** The simulated progress and the completion of the awaited call *)
Module ProgressProofs.
Import EventLoop.

Lemma asr_tick_le_90 (r : Progress.random_value) (p : option Z) : Progress.asr_tick r p <= 90.
Proof.
  unfold Progress.asr_tick; destruct p as [p|]; [|lia].
  destruct (Z.geb_spec (p + Progress.floor_random r 6 + 2) 90); lia.
Qed.

Lemma mt_tick_le_90 (r : Progress.random_value) (p : option Z) : Progress.mt_tick r p <= 90.
Proof.
  unfold Progress.mt_tick; destruct p as [p|]; [|lia].
  destruct (Z.geb_spec (p + Progress.floor_random r 8 + 3) 90); lia.
Qed.

Lemma in_filter_true {X} (f : X -> bool) (x : X) (l : list X) : In x (filter f l) -> f x = true.
Proof. intros H; apply filter_In in H; tauto. Qed.

(** After [clearInterval(h)], the tasks are the survivors of the filter
    and timeouts registered with fresh handles. *)
Ltac fresh_handles Hlt :=
  let t := fresh "t" in let Ht := fresh "Ht" in
  intros t Ht;
  repeat (apply in_app_or in Ht; destruct Ht as [Ht|Ht]);
  first [ apply in_filter_true, negb_true_iff, Nat.eqb_neq in Ht; exact Ht
        | destruct Ht as [<-|[]]; cbn; lia ].

Ltac log_unchanged := exists []; split; [rewrite app_nil_r; reflexivity | intros v []].

(** Running a timer callback of the Chat page logs only values <= 90. *)
Lemma chat_fire_log (random : nat -> Progress.random_value) (w : Chat.W) (t : task Chat.callback) :
  exists new,
    Chat.progress_log (page (fire random Chat.uses_random Chat.run_cb t w))
      = (Chat.progress_log (page w) ++ new)%list
    /\ forall v, In (Some v) new -> v <= 90.
Proof.
  unfold fire; cbn [page]; destruct (t_cb t); cbn.
  - eexists; split; [reflexivity|].
    intros v [Hv|[]]; injection Hv as <-; apply asr_tick_le_90.
  - eexists; split; [reflexivity|]. intros v [Hv|[]]; discriminate.
  - log_unchanged.
  - log_unchanged.
Qed.

Lemma find_remove_chat (op : nat) (l : list Chat.pending) :
  Chat.find_pending op (Chat.remove_pending op l) = None.
Proof.
  induction l as [|p l IH]; cbn; auto.
  destruct (Nat.eqb (Chat.p_op p) op) eqn:E; cbn; auto.
  rewrite E; exact IH.
Qed.

(** Any event other than the result of a pending ASR call logs only
    values below 100. *)
Lemma chat_handle_log (e : Chat.event) (w : Chat.W) :
  (forall op res, e = Chat.AsrDelivered op res -> Chat.find_pending op (Chat.inflight (page w)) = None) ->
  exists new,
    Chat.progress_log (page (Chat.handle e w)) = (Chat.progress_log (page w) ++ new)%list
    /\ forall v, In (Some v) new -> v < 100.
Proof.
  intros He; destruct e; cbn [Chat.handle].
  - unfold Chat.handleSend.
    destruct (Chat.send_blocked (page w)); [log_unchanged|].
    destruct (Chat.select_call (page w)).
    + destruct (Chat.backendAvailable (page w)) as [[|]|]; cbn.
      * eexists; split; [reflexivity|]. intros v [Hv|[]]; injection Hv as <-; lia.
      * log_unchanged.
      * log_unchanged.
    + cbn; log_unchanged.
  - unfold Chat.on_asr_result; rewrite (He op res eq_refl); log_unchanged.
  - cbn; log_unchanged.
  - cbn; log_unchanged.
  - cbn; log_unchanged.
  - cbn; log_unchanged.
  - cbn; log_unchanged.
Qed.

Lemma chat_result_completes (op : nat) (res : Chat.asr_result) (w : Chat.W) (p : Chat.pending) :
  Chat.find_pending op (Chat.inflight (page w)) = Some p ->
  (Chat.p_interval p < next_handle w)%nat ->
  let w' := Chat.handle (Chat.AsrDelivered op res) w in
  (forall t, In t (tasks w') -> t_handle t <> Chat.p_interval p)
  /\ Chat.find_pending op (Chat.inflight (page w')) = None
  /\ exists new, Chat.progress_log (page w') = (Chat.progress_log (page w) ++ new)%list
                 /\ In (Some 100) new.
Proof.
  intros Hp Hlt; cbn [Chat.handle]; unfold Chat.on_asr_result; rewrite Hp.
  destruct res as [r|m]; [destruct (Chat.success r)|];
    unfold Chat.finish_send, Chat.asr_finally, Chat.asr_catch, Chat.asr_success,
      clear_interval, set_timeout, update_page, set_page; cbn;
    try destruct (Chat.p_audioBlob p); cbn;
    (split; [fresh_handles Hlt | split; [apply find_remove_chat | ]]);
    (eexists; split; [rewrite <- ?app_assoc; reflexivity | cbn; auto]).
Qed.

(** Running a timer callback of the MT page logs only values <= 90. *)
Lemma mt_fire_log (random : nat -> Progress.random_value) (w : MT.W) (t : task MT.callback) :
  exists new,
    MT.progress_log (page (fire random MT.uses_random MT.run_cb t w))
      = (MT.progress_log (page w) ++ new)%list
    /\ forall v, In (Some v) new -> v <= 90.
Proof.
  unfold fire; cbn [page]; destruct (t_cb t); cbn.
  - eexists; split; [reflexivity|].
    intros v [Hv|[]]; injection Hv as <-; apply mt_tick_le_90.
  - eexists; split; [reflexivity|]. intros v [Hv|[]]; discriminate.
Qed.

Lemma find_remove_mt (op : nat) (l : list MT.mt_pending) :
  MT.find_pending op (filter (fun q => negb (Nat.eqb (MT.mp_op q) op)) l) = None.
Proof.
  induction l as [|p l IH]; cbn; auto.
  destruct (Nat.eqb (MT.mp_op p) op) eqn:E; cbn; auto.
  rewrite E; exact IH.
Qed.

(** Any event other than the result of a pending translate call logs
    only values below 100. *)
Lemma mt_handle_log (e : MT.event) (w : MT.W) :
  (forall op res, e = MT.MtDelivered op res -> MT.find_pending op (MT.inflight (page w)) = None) ->
  exists new,
    MT.progress_log (page (MT.handle e w)) = (MT.progress_log (page w) ++ new)%list
    /\ forall v, In (Some v) new -> v < 100.
Proof.
  intros He; destruct e; cbn [MT.handle].
  - destruct (MT.loading (page w)); [log_unchanged|].
    unfold MT.handleTranslate; destruct (MT.transcription (page w)); cbn; [|log_unchanged].
    eexists; split; [reflexivity|]. intros v [Hv|[]]; injection Hv as <-; lia.
  - unfold MT.on_mt_result; rewrite (He op res eq_refl); log_unchanged.
  - cbn; log_unchanged.
  - cbn; log_unchanged.
  - cbn; log_unchanged.
  - cbn; unfold MT.continueToTTS; destruct (JS.truthy (MT.result (page w))); cbn; log_unchanged.
Qed.

Lemma mt_result_completes (op : nat) (res : MT.mt_result) (w : MT.W) (p : MT.mt_pending) :
  MT.find_pending op (MT.inflight (page w)) = Some p ->
  (MT.mp_interval p < next_handle w)%nat ->
  let w' := MT.handle (MT.MtDelivered op res) w in
  (forall t, In t (tasks w') -> t_handle t <> MT.mp_interval p)
  /\ MT.find_pending op (MT.inflight (page w')) = None
  /\ exists new, MT.progress_log (page w') = (MT.progress_log (page w) ++ new)%list
                 /\ In (Some 100) new.
Proof.
  intros Hp Hlt; cbn [MT.handle]; unfold MT.on_mt_result; rewrite Hp.
  destruct res as [tr|m];
    unfold MT.mt_finally, clear_interval, set_timeout, update_page, set_page; cbn;
    try destruct (JS.truthy _); cbn;
    (split; [fresh_handles Hlt | split; [apply find_remove_mt | ]]);
    (eexists; split; [rewrite <- ?app_assoc; reflexivity | cbn; auto]).
Qed.

(** C1: on both pages, (1) a run of the interval updater (or of any other
    timer callback) only ever hands the progress setter values <= 90;
    (2) an event hands it a value of 100 or more only when it is the
    result (success or error) of an awaited ASR / translate call that is
    still pending; (3) that result clears the operation's interval, whose
    handle no remaining task carries (later timers get fresh handles), and
    completes the progress with 100. *)
Theorem progress_100_only_on_result :
  (forall random (w : Chat.W) t, exists new,
     Chat.progress_log (page (fire random Chat.uses_random Chat.run_cb t w))
       = (Chat.progress_log (page w) ++ new)%list
     /\ forall v, In (Some v) new -> v <= 90)
  /\ (forall e (w : Chat.W),
        (forall op res, e = Chat.AsrDelivered op res ->
           Chat.find_pending op (Chat.inflight (page w)) = None) ->
        exists new,
          Chat.progress_log (page (Chat.handle e w)) = (Chat.progress_log (page w) ++ new)%list
          /\ forall v, In (Some v) new -> v < 100)
  /\ (forall op res (w : Chat.W) p,
        Chat.find_pending op (Chat.inflight (page w)) = Some p ->
        (Chat.p_interval p < next_handle w)%nat ->
        let w' := Chat.handle (Chat.AsrDelivered op res) w in
        (forall t, In t (tasks w') -> t_handle t <> Chat.p_interval p)
        /\ Chat.find_pending op (Chat.inflight (page w')) = None
        /\ exists new, Chat.progress_log (page w') = (Chat.progress_log (page w) ++ new)%list
                       /\ In (Some 100) new)
  /\ (forall random (w : MT.W) t, exists new,
        MT.progress_log (page (fire random MT.uses_random MT.run_cb t w))
          = (MT.progress_log (page w) ++ new)%list
        /\ forall v, In (Some v) new -> v <= 90)
  /\ (forall e (w : MT.W),
        (forall op res, e = MT.MtDelivered op res ->
           MT.find_pending op (MT.inflight (page w)) = None) ->
        exists new,
          MT.progress_log (page (MT.handle e w)) = (MT.progress_log (page w) ++ new)%list
          /\ forall v, In (Some v) new -> v < 100)
  /\ (forall op res (w : MT.W) p,
        MT.find_pending op (MT.inflight (page w)) = Some p ->
        (MT.mp_interval p < next_handle w)%nat ->
        let w' := MT.handle (MT.MtDelivered op res) w in
        (forall t, In t (tasks w') -> t_handle t <> MT.mp_interval p)
        /\ MT.find_pending op (MT.inflight (page w')) = None
        /\ exists new, MT.progress_log (page w') = (MT.progress_log (page w) ++ new)%list
                       /\ In (Some 100) new).
Proof.
  split; [exact chat_fire_log|]. split; [exact chat_handle_log|].
  split; [exact chat_result_completes|]. split; [exact mt_fire_log|].
  split; [exact mt_handle_log|]. exact mt_result_completes.
Qed.

Lemma progress_100_only_on_result_witness :
  let w := Chat.handle Chat.Send (Chat.start ChatProofs.rec_state) in
  let w' := Chat.handle (Chat.AsrDelivered 0 (Chat.Threw "boom")) w in
  (forall t, In t (tasks w') -> t_handle t <> 0%nat)
  /\ Chat.find_pending 0 (Chat.inflight (page w')) = None.
Proof.
  destruct progress_100_only_on_result as (_ & _ & H & _).
  destruct (H 0%nat (Chat.Threw "boom") (Chat.handle Chat.Send (Chat.start ChatProofs.rec_state))
              (Chat.mkPending 0 0 "" (Some "rec") None (Chat.ProcessMicrophoneAudio "rec")))
    as (H1 & H2 & _); [vm_compute; reflexivity | vm_compute; lia |].
  split; [exact H1 | exact H2].
Defined.
End ProgressProofs.

(** ** Runs of the pages on concrete schedules *)
Module Scenarios.
Import EventLoop.
Definition half_random := HandoffProofs.half_random.

(** C3: an ASR operation lasting 900 ms (interval 300 ms, Math.random()
    = 0.5).  When the service call fails, the [catch] block and then the
    [finally] block each call [setAsrProgress(100)]: the progress setter
    receives 100 twice.  On the success path it receives it once. *)
Lemma asr_error_path_emits_100_twice :
  Chat.progress_log (page (Chat.run half_random 50 900 (Chat.start ChatProofs.rec_state)
      [(0, Chat.Send); (900, Chat.AsrDelivered 0 (Chat.Threw "boom"))]))
    = [Some 0; Some 5; Some 10; Some 15; Some 100; Some 100]
  /\ Chat.progress_log (page (Chat.run half_random 50 900 (Chat.start ChatProofs.rec_state)
      [(0, Chat.Send); (900, Chat.AsrDelivered 0 (Chat.Returned ChatProofs.rec_response))]))
    = [Some 0; Some 5; Some 10; Some 15; Some 100].
Proof. vm_compute; split; reflexivity. Qed.

(** C4: a translation completes at 900 ms, which re-enables the Translate
    button; a second translation starts at 1050 ms.  The 700 ms timer of
    the first operation fires at 1600 ms and sets the progress to null
    while the second call is still pending; the next tick restarts it at
    1.  The second operation's progress goes 0, 7, null, 1. *)
Lemma mt_stale_reset_during_next_operation :
  let w := MT.run half_random 50 1700 (MT.start MTProofs.hello_state)
             [(0, MT.Translate); (900, MT.MtDelivered 0 (MT.Translated "namaste"));
              (1050, MT.Translate)] in
  map MT.mp_op (MT.inflight (page w)) = [1%nat]
  /\ MT.progress_log (page w)
     = [Some 0; Some 7; Some 14; Some 21; Some 100; Some 0; Some 7; None; Some 1].
Proof. vm_compute; split; reflexivity. Qed.

(** C9: the first ASR call fails at 900 ms; the user sends the same
    recording again at 950 ms.  The [finally] block of the first call
    scheduled [setIsProcessingASR(false)] for 1100 ms, which clears the
    flag while the second call is pending, so the guard of [handleSend]
    lets a third call start at 1150 ms: two ASR calls are in flight. *)
Lemma two_asr_calls_in_flight :
  let w := Chat.run half_random 50 1150 (Chat.start ChatProofs.rec_state)
             [(0, Chat.Send); (900, Chat.AsrDelivered 0 (Chat.Threw "boom"));
              (950, Chat.Send); (1150, Chat.Send)] in
  map Chat.p_op (Chat.inflight (page w)) = [1%nat; 2%nat]
  /\ Chat.isProcessingASR (page w) = true.
Proof. vm_compute; split; reflexivity. Qed.

End Scenarios.

(** * Further properties of the pages *)

(** ** The Chat page's send paths *)
Module ChatExtras.
Import EventLoop Chat.



Lemma string_app_assoc (a b c : string) : (a ++ b) ++ c = a ++ b ++ c.
Proof. induction a as [|x a IH]; cbn; [reflexivity|now rewrite IH]. Qed.










(** The error text of a failed ASR call, as the [catch] block shows it. *)
Definition asr_error_text (res : asr_result) : option string :=
  match res with
  | Threw m => Some m
  | Returned r =>
      if success r then None
      else JS.or_else (error r) (Some "ASR processing failed")
  end.

(** When a pending ASR call fails (throws, or returns [success: false]),
    the page shows the error, clears [isProcessingASR] and otherwise keeps
    what it had: no user message, the text input and the attached media
    stay for a retry, and the detected language, last transcription and
    last recording are those of before. *)
Theorem asr_failure_keeps_inputs (w : Chat.W) (op : nat) (p : pending) (res : asr_result)
    (msg : string) :
  find_pending op (inflight (page w)) = Some p ->
  asr_error_text res = Some msg ->
  let s := page w in
  let s' := page (handle (AsrDelivered op res) w) in
  messages s' = messages s /\ input s' = input s /\ isLoading s' = isLoading s
  /\ audioBlob s' = audioBlob s /\ audioFile s' = audioFile s /\ mediaLink s' = mediaLink s
  /\ detectedLanguage s' = detectedLanguage s /\ lastTranscription s' = lastTranscription s
  /\ lastRecordingUrl s' = lastRecordingUrl s /\ isProcessingASR s' = false
  /\ toasts s' = (toasts s ++ [mkToast "ASR processing failed" msg])%list.
Proof.
  intros Hp Hm; cbn [handle]; unfold on_asr_result; rewrite Hp.
  destruct res as [r|m]; cbn in Hm.
  - destruct (success r); [discriminate|].
    destruct (JS.or_else (error r) (Some "ASR processing failed")) as [x|]; [|discriminate].
    injection Hm as <-; cbn; repeat split.
  - injection Hm as <-; cbn; repeat split.
Qed.

Lemma asr_failure_keeps_inputs_witness :
  audioBlob (page (handle (AsrDelivered 0 (Threw "boom")) (handle Send (start ChatProofs.rec_state))))
  = Some "rec".
Proof.
  destruct (asr_failure_keeps_inputs (handle Send (start ChatProofs.rec_state)) 0
              (mkPending 0 0 "" (Some "rec") None (ProcessMicrophoneAudio "rec"))
              (Threw "boom") "boom")
    as (_ & _ & _ & H & _); [vm_compute; reflexivity | reflexivity |].
  rewrite H; reflexivity.
Defined.



End ChatExtras.

(** ** The progress updaters, one tick at a time *)
Module TickExtras.
Import Progress.

Lemma floor_random_bounds (r : random_value) (k : Z) :
  valid_random r -> 0 < k -> 0 <= floor_random r k < k.
Proof.
  unfold valid_random, floor_random; destruct r as [n d]; cbn; intros [H0 H1] Hk.
  split; [apply Z.div_pos; nia|].
  apply Z.div_lt_upper_bound; nia.
Qed.

(** One tick of the ASR updater on a value in [0, 90] adds an amount
    between 2 and 7 and caps the sum at 90: the result never decreases the
    value and never exceeds 90. *)
Theorem asr_tick_step (r : random_value) (p : Z) :
  valid_random r -> 0 <= p <= 90 ->
  exists k, 2 <= k <= 7 /\ asr_tick r (Some p) = Z.min (p + k) 90
            /\ p <= asr_tick r (Some p) <= 90.
Proof.
  intros Hr Hp; pose proof (floor_random_bounds r 6 Hr ltac:(lia)) as Hf.
  exists (floor_random r 6 + 2); unfold asr_tick.
  destruct (Z.geb_spec (p + floor_random r 6 + 2) 90); lia.
Qed.

Lemma asr_tick_step_witness :
  exists k, 2 <= k <= 7 /\ asr_tick (1, 2) (Some 88) = Z.min (88 + k) 90
            /\ 88 <= asr_tick (1, 2) (Some 88) <= 90.
Proof. apply asr_tick_step; [unfold valid_random; cbn; lia | lia]. Defined.

(** One tick of the MT updater on a value in [0, 90] adds an amount between
    3 and 10 and caps the sum at 90. *)
Theorem mt_tick_step (r : random_value) (p : Z) :
  valid_random r -> 0 <= p <= 90 ->
  exists k, 3 <= k <= 10 /\ mt_tick r (Some p) = Z.min (p + k) 90
            /\ p <= mt_tick r (Some p) <= 90.
Proof.
  intros Hr Hp; pose proof (floor_random_bounds r 8 Hr ltac:(lia)) as Hf.
  exists (floor_random r 8 + 3); unfold mt_tick.
  destruct (Z.geb_spec (p + floor_random r 8 + 3) 90); lia.
Qed.

Lemma mt_tick_step_witness :
  exists k, 3 <= k <= 10 /\ mt_tick (0, 1) (Some 10) = Z.min (10 + k) 90
            /\ 10 <= mt_tick (0, 1) (Some 10) <= 90.
Proof. apply mt_tick_step; [unfold valid_random; cbn; lia | lia]. Defined.

End TickExtras.

(** ** The MT page: a translation from click to result *)
Module MTExtras.
Import EventLoop MT.

Lemma find_pending_app (op : nat) (l : list mt_pending) (q : mt_pending) :
  find_pending op l = None -> mp_op q = op -> find_pending op (l ++ [q]) = Some q.
Proof.
  intros Hn Hq; induction l as [|x l IH]; cbn in *.
  - rewrite Hq, Nat.eqb_refl; reflexivity.
  - destruct (Nat.eqb (mp_op x) op); [discriminate|exact (IH Hn)].
Qed.

Lemma handleTranslate_page (w : MT.W) (tr : string) :
  transcription (page w) = Some tr ->
  page (handleTranslate w)
  = setNextOp (S (next_op (page w)))
      (setInflight (inflight (page w) ++
         [mkMtPending (next_op (page w)) (next_handle w)
            (mkRequest tr (srcLang (page w)) (tgtLang (page w)) (model (page w)))])
         (setError None (setMtProgress (Some 0) (setLoading true (page w))))).
Proof.
  intros Ht; unfold handleTranslate; rewrite Ht; reflexivity.
Qed.

Lemma on_mt_result_translated_page (w : MT.W) (op : nat) (p : mt_pending) (t : string) :
  find_pending op (inflight (page w)) = Some p ->
  page (on_mt_result op (Translated t) w)
  = setLoading false (setMtProgress (Some 100)
      (let s1 := setResult (Some t)
                   (setInflight (filter (fun q => negb (Nat.eqb (mp_op q) op)) (inflight (page w)))
                      (page w)) in
       if JS.truthy (access_token s1) then addSaved t s1 else s1)).
Proof.
  intros Hp; unfold on_mt_result; rewrite Hp; reflexivity.
Qed.

(** A translation started from an idle page clears the previous error and
    keeps the previous translation on screen while it runs; when it
    succeeds, the new translation is shown with no error, [loading] is
    cleared, the progress completes at 100, and the translation is sent to
    [saveChat] exactly when an access token is present. *)
Theorem translate_success (w : MT.W) (tr t : string) :
  loading (page w) = false ->
  transcription (page w) = Some tr ->
  find_pending (next_op (page w)) (inflight (page w)) = None ->
  let w1 := handle Translate w in
  let w2 := handle (MtDelivered (next_op (page w)) (Translated t)) w1 in
  error (page w1) = None /\ result (page w1) = result (page w) /\ loading (page w1) = true
  /\ result (page w2) = Some t /\ error (page w2) = None /\ loading (page w2) = false
  /\ mtProgress (page w2) = Some 100
  /\ saved (page w2) = (saved (page w) ++ if JS.truthy (access_token (page w)) then [t] else [])%list.
Proof.
  intros Hl Ht Hn w1 w2.
  assert (E1 : page w1 = setNextOp (S (next_op (page w)))
      (setInflight (inflight (page w) ++
         [mkMtPending (next_op (page w)) (next_handle w)
            (mkRequest tr (srcLang (page w)) (tgtLang (page w)) (model (page w)))])
         (setError None (setMtProgress (Some 0) (setLoading true (page w)))))).
  { unfold w1, handle; rewrite Hl; exact (handleTranslate_page w tr Ht). }
  assert (Hf : find_pending (next_op (page w)) (inflight (page w1))
               = Some (mkMtPending (next_op (page w)) (next_handle w)
                         (mkRequest tr (srcLang (page w)) (tgtLang (page w)) (model (page w))))).
  { rewrite E1; apply find_pending_app; [exact Hn | reflexivity]. }
  pose proof (on_mt_result_translated_page _ _ _ t Hf) as E2.
  change (on_mt_result (next_op (page w)) (Translated t) w1) with w2 in E2.
  change (handle (MtDelivered (next_op (page w)) (Translated t)) w1) with w2.
  rewrite E2, E1.
  cbn zeta; cbn [setLoading setMtProgress setResult setInflight setNextOp setError addSaved
                 error result loading mtProgress saved access_token].
  destruct (JS.truthy (access_token (page w))); cbn [saved addSaved result error loading mtProgress];
    repeat split; try reflexivity; rewrite app_nil_r; reflexivity.
Qed.

Lemma translate_success_witness :
  let w := start MTProofs.hello_state in
  let w1 := handle Translate w in
  let w2 := handle (MtDelivered (next_op (page w)) (Translated "namaste")) w1 in
  error (page w1) = None /\ result (page w1) = result (page w) /\ loading (page w1) = true
  /\ result (page w2) = Some "namaste" /\ error (page w2) = None /\ loading (page w2) = false
  /\ mtProgress (page w2) = Some 100
  /\ saved (page w2) = (saved (page w) ++ if JS.truthy (access_token (page w)) then ["namaste"] else [])%list.
Proof. apply (translate_success (start MTProofs.hello_state) "hello" "namaste"); reflexivity. Defined.

(** Reached with no transcription in the navigation state (none, or an
    empty one), the MT page never translates: Translate changes nothing. *)
Theorem translate_needs_transcription (loc : option Chat.mt_location) (tok : option string) :
  match loc with Some l => JS.truthy (Chat.loc_transcription l) | None => false end = false ->
  handle Translate (start (mount loc tok)) = start (mount loc tok).
Proof.
  intros H; cbn [handle]; unfold mount, handleTranslate, JS.or_else.
  destruct loc as [l|]; cbn; [rewrite H|]; reflexivity.
Qed.

Lemma translate_needs_transcription_witness :
  handle Translate (start (mount (Some (Chat.mkMtLocation (Some "") (Some "hi") None)) None))
  = start (mount (Some (Chat.mkMtLocation (Some "") (Some "hi") None)) None).
Proof. apply translate_needs_transcription; reflexivity. Defined.

End MTExtras.

(** ** The Hero lightbox: navigation *)
Module HeroExtras.
Import Hero.

(** Between two plots that are not at the ends, ChevronRight then
    ChevronLeft returns to the same plot, zoom unchanged. *)
Theorem next_then_prev (s : HeroState) (imgs : list string) :
  evalImages s = Some imgs ->
  0 <= evalIndex s < Z.of_nat (List.length imgs) - 1 ->
  step (step s Next) Prev = s.
Proof.
  destruct s as [ei i z]; cbn [evalImages evalIndex]; intros -> Hi.
  assert (Hn : Nat.ltb 1 (List.length imgs) = true) by (apply Nat.ltb_lt; lia).
  unfold step; cbn [evalImages evalIndex zoomed]; rewrite Hn.
  destruct (Z.eqb_spec i (Z.of_nat (List.length imgs) - 1)); [lia|]; cbn [andb negb evalImages evalIndex zoomed].
  rewrite Hn.
  destruct (Z.eqb_spec (Z.min (Z.of_nat (List.length imgs) - 1) (i + 1)) 0); [lia|]; cbn [andb negb].
  f_equal; lia.
Qed.

Lemma next_then_prev_witness :
  step (step (step initial OpenTtsPlots) Next) Prev = step initial OpenTtsPlots.
Proof. apply (next_then_prev _ ["/tts_mos.png"; "/tts_rtf.png"]); cbn; [reflexivity | lia]. Defined.

(** ChevronLeft then ChevronRight returns to the same plot when the plot
    is not the first. *)
Theorem prev_then_next (s : HeroState) (imgs : list string) :
  evalImages s = Some imgs ->
  0 < evalIndex s <= Z.of_nat (List.length imgs) - 1 ->
  step (step s Prev) Next = s.
Proof.
  destruct s as [ei i z]; cbn [evalImages evalIndex]; intros -> Hi.
  assert (Hn : Nat.ltb 1 (List.length imgs) = true) by (apply Nat.ltb_lt; lia).
  unfold step; cbn [evalImages evalIndex zoomed]; rewrite Hn.
  destruct (Z.eqb_spec i 0); [lia|]; cbn [andb negb evalImages evalIndex zoomed].
  rewrite Hn.
  destruct (Z.eqb_spec (Z.max 0 (i - 1)) (Z.of_nat (List.length imgs) - 1)); [lia|]; cbn [andb negb].
  f_equal; lia.
Qed.

Lemma prev_then_next_witness :
  step (step (step (step initial OpenTtsPlots) Next) Prev) Next
  = step (step initial OpenTtsPlots) Next.
Proof. apply (prev_then_next _ ["/tts_mos.png"; "/tts_rtf.png"]); cbn; [reflexivity | lia]. Defined.

End HeroExtras.

(** ** The Hero lightbox: the caption under the plot *)
Module HeroCaption.
Import Hero.

(** [s.split('/')]: the pieces between the separators, [[""]] for the
    empty string. *)
Fixpoint split_slash (s : string) : list string :=
  match s with
  | EmptyString => [EmptyString]
  | String c s' =>
      if Ascii.eqb c "/"%char then EmptyString :: split_slash s'
      else match split_slash s' with
           | h :: t => String c h :: t
           | [] => [String c EmptyString]
           end
  end.

(** [Array.prototype.pop] on the array read: its last element, [None]
    for an empty array. *)
Definition pop (l : list string) : option string :=
  match rev l with
  | x :: _ => Some x
  | [] => None
  end.

(** [String.prototype.toLowerCase] on one-byte characters: A-Z and the
    Latin-1 capitals U+00C0..U+00DE (except U+00D7) map to their lower case. *)
Definition lower_char (c : ascii) : ascii :=
  let n := nat_of_ascii c in
  if (Nat.leb 65 n && Nat.leb n 90)
     || (Nat.leb 192 n && Nat.leb n 222 && negb (Nat.eqb n 215))
  then ascii_of_nat (n + 32) else c.

Fixpoint toLowerCase (s : string) : string :=
  match s with
  | EmptyString => EmptyString
  | String c s' => String (lower_char c) (toLowerCase s')
  end.

Definition captionMap : list (string * string) :=
  [("asrcombined.png", "ASR combined evaluation metrics (WER, CER, etc.)");
   ("mtcombined.png", "MT combined evaluation (BLEU / chrF scores)");
   ("mt_combined.png", "MT combined evaluation (BLEU / chrF scores)");
   ("tts_mos.png", "TTS MOS (mean opinion score) results");
   ("tts_rtf.png", "TTS real-time factor (RTF) measurements")].

(** Members a [Record<string, string>] object literal inherits from
    [Object.prototype]: reading one of them is never [undefined]. *)
Definition object_prototype_members : list string :=
  ["constructor"; "hasOwnProperty"; "isPrototypeOf"; "propertyIsEnumerable";
   "toLocaleString"; "toString"; "valueOf"; "__proto__";
   "__defineGetter__"; "__defineSetter__"; "__lookupGetter__"; "__lookupSetter__"].

Fixpoint lookup (k : string) (m : list (string * string)) : option string :=
  match m with
  | [] => None
  | (k', v) :: m' => if String.eqb k k' then Some v else lookup k m'
  end.

(** What the caption expression evaluates to: a caption text, an
    inherited [Object.prototype] member (rendered as whatever React makes
    of it), or a [TypeError] when [evalImages[evalIndex]] is [undefined]. *)
Inductive caption_result :=
| Caption (text : string)
| InheritedMember (name : string)
| CaptionThrows.

(** [const name = src.split('/').pop()?.toLowerCase() || '';
     return captionMap[name] ?? 'Evaluation plot'] *)
Definition caption_of (src : string) : caption_result :=
  let name := match pop (split_slash src) with
              | Some x => match toLowerCase x with EmptyString => EmptyString | y => y end
              | None => EmptyString
              end in
  match lookup name captionMap with
  | Some c => Caption c
  | None =>
      if existsb (String.eqb name) object_prototype_members
      then InheritedMember name
      else Caption "Evaluation plot"
  end.

Definition caption (s : HeroState) : caption_result :=
  match displayed s with
  | Some src => caption_of src
  | None => CaptionThrows
  end.

Definition asr_plots : list string := ["/asrcombined.png"].
Definition mt_plots : list string := ["/mt_combined.png"].
Definition tts_plots : list string := ["/tts_mos.png"; "/tts_rtf.png"].

(** The lightbox only ever holds one of the three arrays its buttons set. *)
Definition known_images (s : HeroState) : Prop :=
  match evalImages s with
  | Some imgs => imgs = asr_plots \/ imgs = mt_plots \/ imgs = tts_plots
  | None => True
  end.

Lemma step_known_images (s : HeroState) (e : event) :
  known_images s -> known_images (step s e).
Proof.
  unfold known_images; destruct e; cbn; auto;
    destruct (evalImages s) as [imgs|] eqn:Ei; cbn; try rewrite Ei; auto.
  all: match goal with
       | |- context [if ?c then _ else _] => destruct c; cbn; rewrite ?Ei; auto
       end.
Qed.

Lemma run_known_images (es : list event) (s : HeroState) :
  known_images s -> known_images (run s es).
Proof.
  revert s; induction es as [|e es IH]; intros s H; cbn; auto.
  apply IH, step_known_images, H.
Qed.

(** Whatever the user clicks, an open lightbox shows one of the
    dedicated captions of [captionMap]: never the 'Evaluation plot'
    fallback, never an inherited member, and never a [TypeError]. *)
Theorem open_lightbox_caption (es : list event) (imgs : list string) :
  evalImages (run initial es) = Some imgs ->
  exists c, caption (run initial es) = Caption c /\ In c (map snd captionMap).
Proof.
  intros Hs.
  pose proof (run_known_images es initial I) as Hk.
  pose proof (HeroProofs.run_in_bounds es initial I) as Hb.
  unfold known_images, HeroProofs.index_in_bounds in *.
  unfold caption, displayed; rewrite Hs in *.
  destruct (Z.ltb_spec (evalIndex (run initial es)) 0); [lia|].
  destruct Hk as [-> | [-> | ->]]; cbn in Hb.
  - assert (evalIndex (run initial es) = 0) as -> by lia.
    eexists; split; [reflexivity | cbn; tauto].
  - assert (evalIndex (run initial es) = 0) as -> by lia.
    eexists; split; [reflexivity | cbn; tauto].
  - destruct (Z.eqb_spec (evalIndex (run initial es)) 0) as [->|Hne].
    + eexists; split; [reflexivity | cbn; tauto].
    + assert (evalIndex (run initial es) = 1) as -> by lia.
      eexists; split; [reflexivity | cbn; tauto].
Qed.

Lemma open_lightbox_caption_witness :
  exists c, caption (run initial [OpenTtsPlots; Next; ToggleZoom]) = Caption c
            /\ In c (map snd captionMap).
Proof. apply (open_lightbox_caption _ tts_plots); reflexivity. Defined.

Lemma split_slash_nonempty (s : string) : (1 <= List.length (split_slash s))%nat.
Proof.
  induction s as [|c s IH]; cbn; [lia|].
  destruct (Ascii.eqb c "/"%char); cbn; [lia|].
  destruct (split_slash s); cbn in *; lia.
Qed.

Lemma pop_cons (x : string) (l : list string) :
  l <> [] -> pop (x :: l) = pop l.
Proof.
  unfold pop; intros Hl; cbn.
  destruct (rev l) as [|y r] eqn:E.
  - apply (f_equal (@rev string)) in E; rewrite rev_involutive in E; cbn in E; congruence.
  - reflexivity.
Qed.

Lemma split_slash_sep_len (a b : string) :
  (2 <= List.length (split_slash (a ++ String "/" b)))%nat.
Proof.
  induction a as [|c a IH]; cbn.
  - pose proof (split_slash_nonempty b); lia.
  - destruct (Ascii.eqb c "/"%char); cbn; [lia|].
    destruct (split_slash (a ++ String "/" b)); cbn in *; lia.
Qed.

Lemma pop_split_sep (a b : string) :
  pop (split_slash (a ++ String "/" b)) = pop (split_slash b).
Proof.
  induction a as [|c a IH]; cbn.
  - apply pop_cons; pose proof (split_slash_nonempty b); destruct (split_slash b); cbn in *; [lia|congruence].
  - pose proof (split_slash_sep_len a b) as Hlen.
    destruct (Ascii.eqb c "/"%char).
    + rewrite pop_cons; [exact IH|].
      destruct (split_slash (a ++ String "/" b)); cbn in *; [lia|congruence].
    + destruct (split_slash (a ++ String "/" b)) as [|h t]; cbn in Hlen; [lia|].
      assert (t <> []) by (destruct t; cbn in *; [lia|congruence]).
      rewrite pop_cons by assumption; rewrite pop_cons in IH by assumption; exact IH.
Qed.

(** The caption depends only on what follows the last '/': whatever
    directory the image is served from, the same file name gets the same
    caption. *)
Theorem caption_of_last_segment (dir file : string) :
  caption_of (dir ++ "/" ++ file) = caption_of file.
Proof.
  unfold caption_of; cbn [append]; rewrite pop_split_sep; reflexivity.
Qed.





End HeroCaption.

(** ** Decimal rendering of integers in template literals *)
Module DecimalProofs.
Import ChatService.

(** Reading a string of decimal digits back, as a server reads a query
    parameter. *)
Definition digit_value (c : ascii) : Z := Z.of_nat (nat_of_ascii c) - 48.

Fixpoint read_from (a : Z) (s : string) : Z :=
  match s with
  | EmptyString => a
  | String c s' => read_from (10 * a + digit_value c) s'
  end.

Definition read_decimal (s : string) : Z := read_from 0 s.

Definition digit_char (n : Z) : ascii := ascii_of_nat (48 + Z.to_nat (n mod 10)).

Lemma digit_value_char (n : Z) : 0 <= n -> digit_value (digit_char n) = n mod 10.
Proof.
  intros Hn; unfold digit_value, digit_char.
  pose proof (Z.mod_pos_bound n 10 ltac:(lia)).
  rewrite nat_ascii_embedding by lia; lia.
Qed.

Lemma digits_S (f : nat) (n : Z) (acc : string) :
  10 <= n -> digits (S f) n acc = digits f (n / 10) (String (digit_char n) acc).
Proof.
  intros Hn; cbn [digits]; destruct (Z.ltb_spec n 10); [lia|]; reflexivity.
Qed.

Lemma read_digits (f : nat) (n : Z) (acc : string) (a : Z) :
  0 <= n < 10 ^ Z.of_nat f ->
  exists k, 0 <= k /\ read_from a (digits f n acc) = read_from (a * 10 ^ k + n) acc.
Proof.
  revert n acc a; induction f as [|f IH]; intros n acc a Hn.
  - cbn in Hn; exists 0; cbn; split; [lia|]; f_equal; lia.
  - destruct (Z.ltb_spec n 10).
    + exists 1; cbn [digits]; destruct (Z.ltb_spec n 10); [|lia].
      cbn [read_from]; fold (digit_char n); rewrite digit_value_char by lia.
      split; [lia|]; rewrite Z.mod_small, Z.pow_1_r by lia; f_equal; lia.
    + rewrite digits_S by lia.
      rewrite Nat2Z.inj_succ, Z.pow_succ_r in Hn by lia.
      destruct (IH (n / 10) (String (digit_char n) acc) a) as [k [Hk ->]].
      { split; [apply Z.div_pos; lia | apply Z.div_lt_upper_bound; lia]. }
      exists (k + 1); split; [lia|]; cbn [read_from].
      rewrite digit_value_char by lia; f_equal.
      rewrite Z.pow_add_r, Z.pow_1_r by lia.
      pose proof (Z.div_mod n 10 ltac:(lia)); nia.
Qed.

Lemma digits_acc (f : nat) (n : Z) (acc : string) :
  digits f n acc = (digits f n "" ++ acc).
Proof.
  revert n acc; induction f as [|f IH]; intros n acc; cbn [digits]; [reflexivity|].
  destruct (Z.ltb n 10); [reflexivity|].
  rewrite IH, (IH _ (String _ "")), ChatExtras.string_app_assoc; reflexivity.
Qed.

(** [`${n}`] read back as a decimal number gives [n]. *)
Lemma read_show_Z (n : Z) :
  0 <= n < 10 ^ 64 -> read_decimal (show_Z n) = n.
Proof.
  intros Hn; unfold show_Z, read_decimal.
  destruct (Z.ltb_spec n 0); [lia|].
  destruct (read_digits 64 n "" 0) as [k [_ ->]]; [exact Hn|].
  cbn; lia.
Qed.

Lemma show_Z_inj (m n : Z) :
  0 <= m < 10 ^ 64 -> 0 <= n < 10 ^ 64 -> show_Z m = show_Z n -> m = n.
Proof.
  intros Hm Hn E; rewrite <- (read_show_Z m Hm), <- (read_show_Z n Hn), E; reflexivity.
Qed.

End DecimalProofs.

(** ** [chatService.getChats]: the limit in the query string *)
Module ChatServiceExtras.
Import ChatService DecimalProofs.



End ChatServiceExtras.

(** ** [handleDownloadMessage] *)
Module Downloads.
Import ChatService DecimalProofs.

Record download := mkDownload {
  d_name : string;        (* a.download *)
  d_contents : string;    (* the Blob's text *)
  d_type : string         (* the Blob's type *)
}.

(** [`vasha-message-${id.substring(0, 8)}.txt`] *)
Definition download_name (id : string) : string :=
  "vasha-message-" ++ substring 0 8 id ++ ".txt".

(** The file offered to the browser, and the toast. *)
Definition handleDownloadMessage (text id : string) (s : Chat.ChatState)
    : download * Chat.ChatState :=
  (mkDownload (download_name id) text "text/plain",
   Chat.toast (Chat.mkToast "" "Message downloaded") s).

(** The ids of the messages [handleSend] adds: [Date.now().toString()]. *)
Definition message_id (now : Z) : string := show_Z now.

Lemma substring_app_length (s r : string) :
  substring 0 (String.length s) (s ++ r) = s.
Proof. induction s as [|c s IH]; cbn; [destruct r; reflexivity | now rewrite IH]. Qed.

Lemma length_append (a b : string) :
  String.length (a ++ b) = (String.length a + String.length b)%nat.
Proof. induction a as [|c a IH]; cbn; [reflexivity | now rewrite IH]. Qed.

Lemma digits_div (k f : nat) (n : Z) :
  10 ^ Z.of_nat k <= n -> (k <= f)%nat ->
  exists tail, String.length tail = k
               /\ digits f n "" = (digits (f - k) (n / 10 ^ Z.of_nat k) "" ++ tail).
Proof.
  revert f n; induction k as [|k IH]; intros f n Hn Hk.
  - exists ""; cbn; rewrite Nat.sub_0_r, Z.div_1_r, ChatServiceProofs.append_empty; split; reflexivity.
  - destruct f as [|f]; [lia|].
    rewrite Nat2Z.inj_succ, Z.pow_succ_r in Hn by lia.
    pose proof (Z.pow_pos_nonneg 10 (Z.of_nat k) ltac:(lia) ltac:(lia)).
    rewrite digits_S by nia; rewrite digits_acc.
    destruct (IH f (n / 10)) as [tail [Ht ->]]; [apply Z.div_le_lower_bound; lia | lia |].
    exists (tail ++ String (digit_char n) "")%string; split.
    + rewrite length_append; cbn; lia.
    + rewrite Z.div_div, <- Z.pow_succ_r, <- Nat2Z.inj_succ by lia.
      cbn [Nat.sub]; apply ChatExtras.string_app_assoc.
Qed.

Lemma digits_length (k f : nat) (n : Z) :
  10 ^ Z.of_nat k <= n < 10 ^ (Z.of_nat k + 1) -> (k < f)%nat ->
  String.length (digits f n "") = S k.
Proof.
  revert f n; induction k as [|k IH]; intros f n Hn Hk; destruct f as [|f]; try lia.
  - cbn [digits]; destruct (Z.ltb_spec n 10); [reflexivity | cbn in Hn; lia].
  - assert (E1 : 10 ^ Z.of_nat (S k) = 10 * 10 ^ Z.of_nat k)
      by (rewrite Nat2Z.inj_succ, Z.pow_succ_r; lia).
    assert (E2 : 10 ^ (Z.of_nat (S k) + 1) = 10 * 10 ^ (Z.of_nat k + 1))
      by (rewrite Nat2Z.inj_succ, <- Z.pow_succ_r by lia; f_equal; lia).
    pose proof (Z.pow_pos_nonneg 10 (Z.of_nat k) ltac:(lia) ltac:(lia)).
    rewrite E1, E2 in Hn.
    rewrite digits_S by nia; rewrite digits_acc, length_append.
    rewrite (IH f (n / 10)); [cbn; lia | | lia].
    split; [apply Z.div_le_lower_bound; lia|].
    apply Z.div_lt_upper_bound; lia.
Qed.

(** The offered file name keeps only the first 8 digits of the 13-digit
    millisecond id: any two messages whose [Date.now()] agree except in
    the last five digits (the same 100-second window) are offered under
    the same file name. *)
Theorem download_name_window (t1 t2 : Z) (text1 text2 : string) (s : Chat.ChatState) :
  10 ^ 12 <= t1 < 10 ^ 13 -> 10 ^ 12 <= t2 < 10 ^ 13 ->
  t1 / 10 ^ 5 = t2 / 10 ^ 5 ->
  d_name (fst (handleDownloadMessage text1 (message_id t1) s))
  = d_name (fst (handleDownloadMessage text2 (message_id t2) s)).
Proof.
  intros H1 H2 E; cbn [fst handleDownloadMessage d_name]; unfold download_name, message_id, show_Z.
  destruct (Z.ltb_spec t1 0); [lia|]; destruct (Z.ltb_spec t2 0); [lia|].
  destruct (digits_div 5 64 t1) as [r1 [_ ->]]; [cbn; lia | lia |].
  destruct (digits_div 5 64 t2) as [r2 [_ ->]]; [cbn; lia | lia |].
  change (Z.of_nat 5) with 5; change (64 - 5)%nat with 59%nat; rewrite E.
  assert (Hl : String.length (digits 59 (t2 / 10 ^ 5) "") = 8%nat).
  { apply (digits_length 7); [|lia]; cbn [Z.of_nat Pos.of_succ_nat].
    split; [apply Z.div_le_lower_bound | apply Z.div_lt_upper_bound]; lia. }
  set (d := digits 59 (t2 / 10 ^ 5) "") in *.
  rewrite <- Hl, !substring_app_length; reflexivity.
Qed.

Lemma download_name_window_witness :
  d_name (fst (handleDownloadMessage "hello" (message_id 1700000000000) (Chat.initial None)))
  = d_name (fst (handleDownloadMessage "bye" (message_id 1700000099999) (Chat.initial None))).
Proof. apply download_name_window; cbn; lia. Defined.

End Downloads.

(** ** Chat history loaded on mount *)
Module History.
Import ChatService DecimalProofs.

(** A message of the [getChats] reply: its [text], and
    [new Date(m.timestamp).getTime()] ([None] for [NaN], an invalid date). *)
Record history_message := mkHistoryMessage { hm_text : string; hm_time : option Z }.

(** An entry of the [responses] state. *)
Record response_entry := mkResponseEntry {
  r_id : string; r_text : string; r_time : option Z; r_language : string
}.

(** How the awaited [chatService.getChats(50)] settles: rejected, resolved
    without a truthy [messages] field, or resolved with messages. *)
Inductive history_reply :=
| HistoryRejected
| HistoryNoMessages
| HistoryMessages (ms : list history_message).

(** [`${n}`] for the number [getTime()] returns. *)
Definition time_string (t : option Z) : string :=
  match t with Some n => show_Z n | None => "NaN" end.

(** [`h-${idx}-${new Date(m.timestamp).getTime()}`] *)
Definition history_id (idx : nat) (t : option Z) : string :=
  "h-" ++ show_Z (Z.of_nat idx) ++ "-" ++ time_string t.

(** [res.messages.map((m, idx) => ...)], then the second [map] building
    the response entries, from index [idx] on. *)
Fixpoint parse_from (idx : nat) (ms : list history_message) : list response_entry :=
  match ms with
  | [] => []
  | m :: ms' =>
      mkResponseEntry (history_id idx (hm_time m)) (hm_text m) (hm_time m) "unknown"
        :: parse_from (S idx) ms'
  end.

(** The history block of the mount effect: nothing without a token or
    when the request fails (the error is only logged); otherwise the
    parsed history is put in front of the existing responses. *)
Definition load_history (token : option string) (reply : history_reply)
    (prev : list response_entry) : list response_entry :=
  if negb (JS.truthy token) then prev
  else match reply with
       | HistoryMessages ms => parse_from 0 ms ++ prev
       | HistoryRejected | HistoryNoMessages => prev
       end.

Fixpoint no_dash (s : string) : bool :=
  match s with
  | EmptyString => true
  | String c s' => negb (Ascii.eqb c "-"%char) && no_dash s'
  end.

Lemma digit_char_not_dash (n : Z) : Ascii.eqb (digit_char n) "-"%char = false.
Proof.
  destruct (Ascii.eqb_spec (digit_char n) "-"%char) as [E|]; [|reflexivity].
  apply (f_equal nat_of_ascii) in E; unfold digit_char in E.
  pose proof (Z.mod_pos_bound n 10 ltac:(lia)).
  rewrite nat_ascii_embedding in E by lia; cbn in E; lia.
Qed.

Lemma no_dash_digits (f : nat) (n : Z) (acc : string) :
  no_dash acc = true -> no_dash (digits f n acc) = true.
Proof.
  revert n acc; induction f as [|f IH]; intros n acc H; cbn [digits]; [exact H|].
  fold (digit_char n).
  assert (no_dash (String (digit_char n) acc) = true)
    by (cbn [no_dash]; rewrite digit_char_not_dash; exact H).
  destruct (Z.ltb n 10); [assumption | apply IH; assumption].
Qed.

Lemma dash_split (s1 s2 r1 r2 : string) :
  no_dash s1 = true -> no_dash s2 = true ->
  (s1 ++ String "-" r1 = s2 ++ String "-" r2)%string -> s1 = s2.
Proof.
  revert s2; induction s1 as [|c s1 IH]; intros s2 H1 H2 E; destruct s2 as [|c' s2]; cbn in *.
  - reflexivity.
  - injection E as <- _; cbn in H2; discriminate.
  - injection E as -> _; cbn in H1; discriminate.
  - injection E as -> E.
    apply andb_prop in H1 as [_ H1]; apply andb_prop in H2 as [_ H2].
    f_equal; exact (IH s2 H1 H2 E).
Qed.

Lemma history_id_inj (i j : nat) (t t' : option Z) :
  Z.of_nat i < 10 ^ 64 -> Z.of_nat j < 10 ^ 64 ->
  history_id i t = history_id j t' -> i = j.
Proof.
  intros Hi Hj E; unfold history_id in E; cbn [append] in E.
  injection E as E.
  assert (Hs : forall k, no_dash (show_Z (Z.of_nat k)) = true).
  { intros k; unfold show_Z; destruct (Z.ltb_spec (Z.of_nat k) 0); [lia|].
    apply no_dash_digits; reflexivity. }
  apply dash_split in E; [|apply Hs|apply Hs].
  apply show_Z_inj in E; lia.
Qed.

Lemma parse_from_ids (x : string) (i : nat) (ms : list history_message) :
  In x (map r_id (parse_from i ms)) ->
  exists k t, (i <= k < i + List.length ms)%nat /\ x = history_id k t.
Proof.
  revert i; induction ms as [|m ms IH]; intros i H; cbn in H; [destruct H|].
  destruct H as [<-|H].
  - exists i, (hm_time m); cbn; split; [lia | reflexivity].
  - destruct (IH (S i) H) as (k & t & Hk & ->); exists k, t; cbn; split; [lia | reflexivity].
Qed.

Lemma parse_from_nodup (i : nat) (ms : list history_message) :
  Z.of_nat (i + List.length ms) <= 10 ^ 64 -> NoDup (map r_id (parse_from i ms)).
Proof.
  revert i; induction ms as [|m ms IH]; intros i Hb; cbn [parse_from map]; [constructor|].
  cbn [List.length] in Hb.
  constructor; [|apply IH; lia].
  intros Hin; apply parse_from_ids in Hin as (k & t & Hk & E).
  cbn [r_id] in E; apply history_id_inj in E; lia.
Qed.

Lemma parse_from_texts (i : nat) (ms : list history_message) :
  map r_text (parse_from i ms) = map hm_text ms.
Proof.
  revert i; induction ms as [|m ms IH]; intros i; cbn; [reflexivity | now rewrite IH].
Qed.

(** With a token and a reply carrying messages, the loaded history is a
    block put in front of the previous responses, one entry per message
    with the message's text in the reply's order, and the ids of the block
    are pairwise distinct whatever the timestamps (equal or invalid ones
    included), since each carries its index. *)
Theorem history_block_distinct_ids (token : option string) (ms : list history_message)
    (prev : list response_entry) :
  JS.truthy token = true ->
  Z.of_nat (List.length ms) <= 10 ^ 64 ->
  exists batch, load_history token (HistoryMessages ms) prev = (batch ++ prev)%list
                /\ map r_text batch = map hm_text ms
                /\ NoDup (map r_id batch).
Proof.
  intros Ht Hb; exists (parse_from 0 ms); unfold load_history; rewrite Ht; cbn [negb].
  split; [reflexivity | split; [apply parse_from_texts | apply parse_from_nodup; exact Hb]].
Qed.

Lemma history_block_distinct_ids_witness :
  exists batch,
    load_history (Some "tok")
      (HistoryMessages [mkHistoryMessage "a" None; mkHistoryMessage "b" None]) []
    = (batch ++ [])%list
    /\ map r_text batch = ["a"; "b"]
    /\ NoDup (map r_id batch).
Proof.
  exact (history_block_distinct_ids (Some "tok")
           [mkHistoryMessage "a" None; mkHistoryMessage "b" None] [] eq_refl
           ltac:(cbn [List.length Z.of_nat]; lia)).
Defined.



End History.
